(** * blind-help backend: the image-analysis request pipeline

    A shallow embedding of [backend/main.py]: the upload validator, the
    storage of the uploaded image, the scene-description pipeline, the
    speech-synthesis step and the audio retrieval endpoint.

    Python [str] values are modelled as [string] (a sequence of bytes),
    file contents as [list byte], Python integers as [Z] (or [N] for the
    128-bit integer of a UUID), the upload directory as a finite map from
    path to contents.  The pretrained models, the image decoder and the
    text-to-speech engine are third-party code: they are an interface
    ([Models]) whose operations either return a value or raise an
    exception carrying a message. *)

From Stdlib Require Import ZArith NArith Ascii String List Lia Bool.
From Stdlib Require Import Init.Byte.
From stdpp Require Import base decidable option list gmap strings.

Open Scope string_scope.

(* [simpl] may unfold string concatenation applied to a constructor. *)
#[local] Arguments String.append !s1 s2 : simpl nomatch.

(** ** Python string operations used by the handlers *)

Module PyStr.

(** [c.lower()] on one ASCII character; bytes outside [A-Z] are kept.
    (No character outside ASCII lowercases to a letter of "jpg", "jpeg"
    or "png", so membership in the allow-list is decided on ASCII.) *)
Definition lower_ascii (c : ascii) : ascii :=
  let n := nat_of_ascii c in
  if (65 <=? n)%nat && (n <=? 90)%nat then ascii_of_nat (n + 32) else c.

(** [s.lower()] *)
Fixpoint lower (s : string) : string :=
  match s with
  | EmptyString => EmptyString
  | String c s' => String (lower_ascii c) (lower s')
  end.

(** [s.split(sep)] for a one-character separator: never the empty list. *)
Fixpoint split (sep : ascii) (s : string) : list string :=
  match s with
  | EmptyString => [EmptyString]
  | String c s' =>
      if Ascii.eqb c sep then EmptyString :: split sep s'
      else match split sep s' with
           | h :: t => String c h :: t
           | [] => [String c EmptyString]
           end
  end.

(** [l[-1]] on the result of a split. *)
Definition last_item (l : list string) : string := List.last l EmptyString.

(** [s.replace(old, new)] for a non-empty [old]: every non-overlapping
    occurrence, scanning from the left.  [skip] counts the characters of
    a matched occurrence still to be dropped. *)
Fixpoint replace_from (old new : string) (skip : nat) (s : string) : string :=
  match s with
  | EmptyString => EmptyString
  | String c s' =>
      match skip with
      | S k => replace_from old new k s'
      | O =>
          if String.prefix old s
          then new ++ replace_from old new (String.length old - 1) s'
          else String c (replace_from old new 0 s')
      end
  end.

Definition replace (old new s : string) : string := replace_from old new 0 s.

(** [s.startswith(c)] and [s.endswith(c)] for one character. *)
Definition startswith (c : ascii) (s : string) : bool :=
  match s with
  | String d _ => Ascii.eqb d c
  | EmptyString => false
  end.

Fixpoint endswith (c : ascii) (s : string) : bool :=
  match s with
  | EmptyString => false
  | String d EmptyString => Ascii.eqb d c
  | String _ s' => endswith c s'
  end.

(** The character [c] occurs in [s]. *)
Fixpoint occurs (c : ascii) (s : string) : bool :=
  match s with
  | EmptyString => false
  | String d s' => Ascii.eqb d c || occurs c s'
  end.

End PyStr.

(** ** [os.path] (posixpath) *)

Module OsPath.

(** [os.path.join(a, b)]: an absolute [b] discards [a]. *)
Definition join (a b : string) : string :=
  if PyStr.startswith "/" b then b
  else if String.eqb a "" || PyStr.endswith "/" a then a ++ b
  else a ++ "/" ++ b.

(** [os.path.basename(p)]: [p[p.rfind('/')+1:]], the part after the last
    slash. *)
Definition basename (p : string) : string :=
  PyStr.last_item (PyStr.split "/" p).

End OsPath.

(** ** [uuid.uuid4()] and [str(UUID)] *)

Module Uuid.

Definition hex_digit (d : N) : ascii :=
  match d with
  | 0 => "0" | 1 => "1" | 2 => "2" | 3 => "3" | 4 => "4" | 5 => "5"
  | 6 => "6" | 7 => "7" | 8 => "8" | 9 => "9" | 10 => "a" | 11 => "b"
  | 12 => "c" | 13 => "d" | 14 => "e" | _ => "f"
  end%N%char.

(** ['%0<width>x' % n] for [n < 16^width]: exactly [width] digits. *)
Fixpoint hex_fixed (width : nat) (n : N) : string :=
  match width with
  | O => EmptyString
  | S w => String (hex_digit ((n / 16 ^ N.of_nat w) mod 16)) (hex_fixed w n)
  end.

(** [UUID(bytes=os.urandom(16), version=4).int], where [r] is the integer
    value of the sixteen random bytes: the variant and version bits are
    overwritten. *)
Definition uuid4 (r : N) : N :=
  let int := (r mod 2 ^ 128)%N in
  let int := N.ldiff int (N.shiftl 0xc000 48) in
  let int := N.lor int (N.shiftl 0x8000 48) in
  let int := N.ldiff int (N.shiftl 0xf000 64) in
  N.lor int (N.shiftl 4 76).

(** ['%s-%s-%s-%s-%s' % (hex[:8], hex[8:12], hex[12:16], hex[16:20], hex[20:])] *)
Definition hyphenate (hex : string) : string :=
  substring 0 8 hex ++ "-" ++ substring 8 4 hex ++ "-" ++
  substring 12 4 hex ++ "-" ++ substring 16 4 hex ++ "-" ++
  substring 20 (String.length hex - 20) hex.

(** [str(u)]: the 32 hex digits of ['%032x' % u.int], grouped 8-4-4-4-12. *)
Definition str (int : N) : string := hyphenate (hex_fixed 32 int).

End Uuid.

(** ** Exceptions, responses and the state of the service *)

(** The exceptions of the program: FastAPI's [HTTPException], and any other
    [Exception], of which only [str(e)] is observed. *)
Inductive exn : Type :=
  | HTTPException (status_code : Z) (detail : string)
  | Exception (msg : string).

(** What a handler returns on success. *)
Inductive Response : Type :=
  | JSONResponse (content : list (string * string))
  | FileResponse (path : string) (media_type : string).

(** The pretrained models and the speech engine. *)
Inductive ModelCall : Type := Detector | Captioner | TextToSpeech.

(** The state the handlers act on: the files on disk, the model invocations
    made so far (most recent first), and the lines written by [logger]. *)
Record World : Type := mkWorld {
  disk : gmap string (list byte);
  invoked : list ModelCall;
  logged : list string
}.

Inductive result (E A : Type) : Type :=
  | Return (a : A)
  | Raise (e : E).
Arguments Return {E A} a.
Arguments Raise {E A} e.

(** Computations over the world that may raise an [E].  A raise keeps the
    world reached so far: nothing is rolled back. *)
Definition M (E A : Type) : Type := World -> result E A * World.

Definition ret {E A} (a : A) : M E A := fun w => (Return a, w).
Definition raise {E A} (e : E) : M E A := fun w => (Raise e, w).

Definition bind {E A B} (m : M E A) (k : A -> M E B) : M E B :=
  fun w =>
    match m w with
    | (Return a, w') => k a w'
    | (Raise e, w') => (Raise e, w')
    end.

(** [try: m except ... as e: h e] *)
Definition try_except {E F A} (m : M E A) (h : E -> M F A) : M F A :=
  fun w =>
    match m w with
    | (Return a, w') => (Return a, w')
    | (Raise e, w') => h e w'
    end.

Notation "'let!' x ':=' m 'in' k" := (bind m (fun x => k))
  (at level 10, x pattern, m at level 100, k at level 200).

(** A third-party call: its value, or the exception it raises. *)
Definition call {A} (r : string + A) : M string A :=
  match r with
  | inr a => ret a
  | inl msg => raise msg
  end.

Definition invoke (c : ModelCall) : M string unit :=
  fun w => (Return tt, mkWorld (disk w) (c :: invoked w) (logged w)).

Definition logger_error {E} (line : string) : M E unit :=
  fun w => (Return tt, mkWorld (disk w) (invoked w) (line :: logged w)).

(** [with open(path, "wb") as f: f.write(data)]: creates or truncates.  An
    [OSError] from [open] or from the copy (full disk, permissions) is not
    modelled: the write always succeeds. *)
Definition write_file {E} (path : string) (data : list byte) : M E unit :=
  fun w => (Return tt, mkWorld (<[path := data]> (disk w)) (invoked w) (logged w)).

(** [open(path, "rb").read()], raising [FileNotFoundError] if absent. *)
Definition read_file (path : string) : M string (list byte) :=
  fun w =>
    match disk w !! path with
    | Some data => (Return data, w)
    | None => (Raise ("[Errno 2] No such file or directory: '" ++ path ++ "'"), w)
    end.

(** The directories that exist as soon as the service runs, the module
    having called [os.makedirs(UPLOAD_DIR, exist_ok=True)]: the upload
    directory, under its own name and through its entries [.] (itself) and
    [..] (its parent).  The service creates no other directory, and [disk]
    holds the regular files. *)
Definition is_directory (path : string) : bool :=
  String.eqb path "uploads" || String.eqb path "uploads/" ||
  String.eqb path "uploads/." || String.eqb path "uploads/..".

(** [os.path.exists(path)]: true of a regular file and of a directory. *)
Definition os_path_exists (path : string) (w : World) : bool :=
  bool_decide (is_Some (disk w !! path)) || is_directory path.

(** ** The third-party interface *)

(** The output of the detector for one image: parallel arrays. *)
Record Detections (Box Label Score : Type) : Type := mkDetections {
  boxes : list Box;
  labels : list Label;
  scores : list Score
}.
Arguments mkDetections {Box Label Score}.
Arguments boxes {Box Label Score}.
Arguments labels {Box Label Score}.
Arguments scores {Box Label Score}.

Class Models : Type := {
  Image : Type;
  Tensor : Type;
  Box : Type;
  Label : Type;
  Score : Type;
  Inputs : Type;
  Token : Type;
  Speech : Type;
  (** [scores >= detection_threshold], elementwise *)
  score_ge : Score -> Score -> bool;
  (** the default threshold [0.6] *)
  score_0_6 : Score;
  (** [Image.open(f)] on the bytes of a file *)
  Image_open : list byte -> string + Image;
  (** [image.convert("RGB")] *)
  convert_RGB : Image -> string + Image;
  (** [T.Compose([T.ToTensor()])(image).unsqueeze(0).to(device)] *)
  to_input_tensor : Image -> string + Tensor;
  (** [object_detector(input_tensor)[0]] *)
  object_detector : Tensor -> string + Detections Box Label Score;
  (** [caption_processor(images=image, text=text, return_tensors="pt")] *)
  caption_processor : Image -> string -> string + Inputs;
  (** [caption_model.generate(inputs, max_length=n)[0]], the keyword
      arguments being the unpacked [inputs] *)
  caption_generate : Inputs -> Z -> string + list Token;
  (** [caption_processor.decode(ids, skip_special_tokens=b)] *)
  caption_decode : list Token -> bool -> string + string;
  (** [gtts.gTTS(text)] *)
  gTTS : string -> string + Speech;
  (** [tts.save(path)]: the bytes that reach the file, and the exception
      raised after writing them, if any *)
  gTTS_save : Speech -> list byte * option string
}.

(** [xs[keep]] for a boolean mask: the entries whose mask bit is set; a mask
    of another length is an [IndexError]. *)
Definition mask_select {A} (xs : list A) (keep : list bool) : string + list A :=
  if (length xs =? length keep)%nat
  then inr (map fst (filter (fun p => snd p = true) (zip xs keep)))
  else inl "The shape of the mask does not match the shape of the indexed tensor".

(** ** The handlers *)

Definition UPLOAD_DIR : string := "uploads".

(** [UploadFile]: the client's file name and the uploaded bytes. *)
Record UploadFile : Type := mkUploadFile {
  filename : string;
  file : list byte
}.

Definition allowed_extensions : gset string := {["jpg"; "jpeg"; "png"]}.

Definition max_file_size : Z := 5 * 1024 * 1024.

Definition invalid_type_detail : string :=
  "Invalid file type. Only JPG, JPEG, and PNG are allowed.".

Definition too_large_detail : string := "File size exceeds the 5MB limit.".

Section Handlers.

Context `{Mo : Models}.

(** The local variables of [describe_scene] when its [try] block ends. *)
Record SceneLocals : Type := mkSceneLocals {
  image : Image;
  bboxes : list Box;
  kept_labels : list Label;
  generated_ids : list Token;
  caption : string
}.

(** The [try] block of [describe_scene]. *)
Definition describe_scene_try (image_path : string) (detection_threshold : Score)
    (max_caption_length : Z) : M string SceneLocals :=
  let! data := read_file image_path in
  let! opened := call (Image_open data) in
  let! image := call (convert_RGB opened) in
  let! input_tensor := call (to_input_tensor image) in
  let! _ := invoke Detector in
  let! detections := call (object_detector input_tensor) in
  let scores := scores detections in
  let keep := map (fun s => score_ge s detection_threshold) scores in
  let! bboxes := call (mask_select (boxes detections) keep) in
  let! labels := call (mask_select (labels detections) keep) in
  let! inputs := call (caption_processor image "") in
  let! _ := invoke Captioner in
  let! generated_ids := call (caption_generate inputs max_caption_length) in
  let! caption := call (caption_decode generated_ids true) in
  ret (mkSceneLocals image bboxes labels generated_ids caption).

(** [describe_scene(image_path, detection_threshold, max_caption_length)] *)
Definition describe_scene (image_path : string) (detection_threshold : Score)
    (max_caption_length : Z) : M exn string :=
  try_except
    (let! locals := describe_scene_try image_path detection_threshold
                      max_caption_length in
     ret (caption locals))
    (fun e =>
       let! _ := logger_error ("Error in scene description: " ++ e) in
       raise (HTTPException 500 ("Error in scene description: " ++ e))).

(** [describe_scene(image_path)] with the defaults [0.6] and [50]. *)
Definition describe_scene_default (image_path : string) : M exn string :=
  describe_scene image_path score_0_6 50.

(** Lifting the plain exceptions of third-party code into [exn]. *)
Definition plain {A} (m : M string A) : M exn A :=
  try_except m (fun msg => raise (Exception msg)).

(** [tts.save(path)] *)
Definition tts_save (tts : Speech) (path : string) : M exn unit :=
  let! _ := write_file path (fst (gTTS_save tts)) in
  match snd (gTTS_save tts) with
  | Some msg => raise (Exception msg)
  | None => ret tt
  end.

(** The [try] block of [analyze_image]; [r] is the value of the sixteen
    random bytes drawn by [uuid.uuid4()]. *)
Definition analyze_image_try (r : N) (upload : UploadFile) : M exn Response :=
  let file_ext := PyStr.lower (PyStr.last_item (PyStr.split "." (filename upload))) in
  if negb (bool_decide (file_ext ∈ allowed_extensions))
  then raise (HTTPException 422 invalid_type_detail)
  else
    let file_size := Z.of_nat (length (file upload)) in
    if (file_size >? max_file_size)%Z
    then raise (HTTPException 422 too_large_detail)
    else
      let file_path :=
        OsPath.join UPLOAD_DIR (Uuid.str (Uuid.uuid4 r) ++ "." ++ file_ext) in
      let! _ := write_file file_path (file upload) in
      let! caption := describe_scene_default file_path in
      let tts_file := PyStr.replace ("." ++ file_ext) ".mp3" file_path in
      let! tts := plain (let! _ := invoke TextToSpeech in call (gTTS caption)) in
      let! _ := tts_save tts tts_file in
      ret (JSONResponse [("caption", caption);
                         ("audio_url", "/audio/" ++ OsPath.basename tts_file)]).

(** [POST /analyze/] *)
Definition analyze_image (r : N) (upload : UploadFile) : M exn Response :=
  try_except (analyze_image_try r upload)
    (fun e =>
       match e with
       | HTTPException _ _ => raise e
       | Exception msg =>
           let! _ := logger_error ("Failed to process image: " ++ msg) in
           raise (HTTPException 500 ("Failed to process image: " ++ msg))
       end).

(** [GET /audio/{filename}] *)
Definition get_audio (filename : string) : M exn Response :=
  fun w =>
    let file_path := OsPath.join UPLOAD_DIR filename in
    if negb (os_path_exists file_path w)
    then (Raise (HTTPException 404 "Audio file not found"), w)
    else (Return (FileResponse file_path "audio/mpeg"), w).

End Handlers.

(** The HTTP status of an outcome: a [JSONResponse] or [FileResponse] is a
    200, an [HTTPException] carries its own. *)
Definition status_of (r : result exn Response) : Z :=
  match r with
  | Return _ => 200
  | Raise (HTTPException c _) => c
  | Raise (Exception _) => 500
  end.

(** The extension [analyze_image] computes from the client's file name:
    [file.filename.split(".")[-1].lower()]. *)
Definition upload_ext (name : string) : string :=
  PyStr.lower (PyStr.last_item (PyStr.split "." name)).

(** The path an accepted upload is stored at, and the path of its audio. *)
Definition stem_of (r : N) : string := Uuid.str (Uuid.uuid4 r).

Definition upload_path (r : N) (name : string) : string :=
  "uploads/" ++ stem_of r ++ "." ++ upload_ext name.

Definition audio_path (r : N) : string := "uploads/" ++ stem_of r ++ ".mp3".

(** The value of a key of a JSON object. *)
Fixpoint json_get (key : string) (content : list (string * string)) : option string :=
  match content with
  | [] => None
  | (k, v) :: rest => if String.eqb k key then Some v else json_get key rest
  end.

Definition audio_url_of (resp : Response) : option string :=
  match resp with
  | JSONResponse content => json_get "audio_url" content
  | FileResponse _ _ => None
  end.

(** Every character of [s] satisfies [P]. *)
Fixpoint all_chars (P : ascii -> bool) (s : string) : bool :=
  match s with
  | EmptyString => true
  | String c s' => P c && all_chars P s'
  end.

Definition is_hex_or_dash (c : ascii) : bool :=
  PyStr.occurs c "0123456789abcdef-".

(** The value of a string of hex digits (and dashes, which are skipped). *)
Fixpoint unhex_from (acc : N) (s : string) : N :=
  match s with
  | EmptyString => acc
  | String c s' =>
      let n := nat_of_ascii c in
      if Ascii.eqb c "-" then unhex_from acc s'
      else if (n <? 58)%nat then unhex_from (16 * acc + N.of_nat (n - 48)) s'
      else unhex_from (16 * acc + N.of_nat (n - 87)) s'
  end.

(** The world after [logger.error(line)]. *)
Definition log_line (line : string) (w : World) : World :=
  mkWorld (disk w) (invoked w) (line :: logged w).

(** A computation that leaves the files on disk as they are. *)
Definition keeps_disk {E A} (m : M E A) : Prop :=
  forall w, disk (snd (m w)) = disk w.

(** A computation that invokes no model. *)
Definition invokes_nothing {E A} (m : M E A) : Prop :=
  forall w, invoked (snd (m w)) = invoked w.

(** ** The shape of a run of [analyze_image] *)

Section RunShape.

Context `{Mo : Models}.

(** The world once the upload has been stored. *)
Definition stored (r : N) (upload : UploadFile) (w : World) : World :=
  mkWorld (<[upload_path r (filename upload) := file upload]> (disk w))
          (invoked w) (logged w).

(** The speech-synthesis step and the response, from the world [w2] the
    description ended in. *)
Definition synthesis (r : N) (caption : string) (w2 : World) : result exn Response * World :=
  let w3 := mkWorld (disk w2) (TextToSpeech :: invoked w2) (logged w2) in
  match gTTS caption with
  | inl msg =>
      (Raise (HTTPException 500 ("Failed to process image: " ++ msg)),
       log_line ("Failed to process image: " ++ msg) w3)
  | inr tts =>
      let w4 := mkWorld (<[audio_path r := fst (gTTS_save tts)]> (disk w3))
                        (invoked w3) (logged w3) in
      match snd (gTTS_save tts) with
      | Some msg =>
          (Raise (HTTPException 500 ("Failed to process image: " ++ msg)),
           log_line ("Failed to process image: " ++ msg) w4)
      | None =>
          (Return (JSONResponse
                     [("caption", caption);
                      ("audio_url", "/audio/" ++ stem_of r ++ ".mp3")]), w4)
      end
  end.

End RunShape.

(** [GET /]: the dict FastAPI serialises as a JSON object. *)
Definition root : M exn Response :=
  ret (JSONResponse [("message", "Backend is running successfully!")]).

(** The entries of [xs] whose mask bit is set, in order: what [mask_select]
    returns when the shapes agree. *)
Definition masked {A} (xs : list A) (keep : list bool) : list A :=
  map fst (filter (fun p => snd p = true) (zip xs keep)).

(** ** A small instance of the third-party interface, to run the handlers *)

Module Demo.

Definition image_open (data : list byte) : string + list byte :=
  match data with
  | [] => inl "cannot identify image file"
  | _ => inr data
  end.

Definition detect (t : list byte) : string + Detections nat nat Z :=
  inr (mkDetections [1; 2; 3]%nat [10; 20; 30]%nat [900; 600; 300]%Z).

Definition decode (ids : list byte) (skip_special_tokens : bool) : string + string :=
  match ids with
  | [x00] => inr ""
  | _ => inr "a photo of a dog"
  end.

Definition speak (text : string) : string + string :=
  if String.eqb text "" then inl "No text to speak" else inr text.

#[export] Instance models : Models := {|
  Image := list byte;
  Tensor := list byte;
  Box := nat;
  Label := nat;
  Score := Z;
  Inputs := list byte * string;
  Token := byte;
  Speech := string;
  score_ge := Z.geb;
  score_0_6 := 600%Z;
  Image_open := image_open;
  convert_RGB := inr;
  to_input_tensor := inr;
  object_detector := detect;
  caption_processor := fun img text => inr (img, text);
  caption_generate := fun inputs n => inr (firstn (Z.to_nat n) (fst inputs));
  caption_decode := decode;
  gTTS := speak;
  gTTS_save := fun tts => ([x49; x44; x33], None)
|}.

Definition empty_world : World := mkWorld ∅ [] [].

Definition photo : UploadFile := mkUploadFile "holiday.PNG" [x89; x50; x4e; x47].

(** A text file, a file that is no image, and a file whose caption is empty. *)
Definition notes : UploadFile := mkUploadFile "notes.txt" [x68; x69].

Definition blank : UploadFile := mkUploadFile "blank.png" [].

Definition silent : UploadFile := mkUploadFile "silent.jpeg" [x00].


Definition world_with_blank : World :=
  mkWorld {["uploads/blank.png" := []]} [] [].

(** The first request of a fresh service, and the same upload sent again. *)
Definition first_run : result exn Response * World :=
  analyze_image 0 photo empty_world.

Definition second_run : result exn Response * World :=
  analyze_image 1 photo (snd first_run).

Definition response_of (stem : string) : Response :=
  JSONResponse [("caption", "a photo of a dog");
                ("audio_url", "/audio/" ++ stem ++ ".mp3")].

(** A small upload with a file name that has no dot. *)
Definition dotless : UploadFile := mkUploadFile "JPG" [xff; xd8; xff].

(** An upload that breaks both rules: one byte over 5 MiB, and not an image. *)
Definition oversized_note : UploadFile :=
  mkUploadFile "notes.txt" (repeat x00 (Z.to_nat (max_file_size + 1))).

End Demo.

(** An instance whose speech engine loses its connection while the audio is
    being written: one byte reaches the file. *)
Module Offline.

#[export] Instance models : Models := {|
  Image := list byte;
  Tensor := list byte;
  Box := nat;
  Label := nat;
  Score := Z;
  Inputs := list byte * string;
  Token := byte;
  Speech := string;
  score_ge := Z.geb;
  score_0_6 := 600%Z;
  Image_open := Demo.image_open;
  convert_RGB := inr;
  to_input_tensor := inr;
  object_detector := Demo.detect;
  caption_processor := fun img text => inr (img, text);
  caption_generate := fun inputs n => inr (firstn (Z.to_nat n) (fst inputs));
  caption_decode := Demo.decode;
  gTTS := Demo.speak;
  gTTS_save := fun tts => ([x49], Some "Failed to connect")
|}.

End Offline.

(** More uploads and values for running the handlers. *)
Module Samples.

Definition shouting : UploadFile := mkUploadFile "HOLIDAY.png" (file Demo.photo).

Definition archive : UploadFile := mkUploadFile "backup.tar.PNG" [x89; x50].

Definition trailing : UploadFile := mkUploadFile "photo." [x89; x50].

(** The locals of [describe_scene] on the stored photo, at threshold 600. *)
Definition photo_locals : SceneLocals (Mo := Demo.models) :=
  mkSceneLocals (Mo := Demo.models) (file Demo.photo) [1; 2]%nat [10; 20]%nat
    (file Demo.photo) "a photo of a dog".

End Samples.

(** * Properties *)

Example lower_JPG : PyStr.lower "JpG" = "jpg".
Proof. reflexivity. Qed.

Example split_dots : PyStr.split "." "a.b.PNG" = ["a"; "b"; "PNG"].
Proof. reflexivity. Qed.

Example replace_twice : PyStr.replace ".jpg" ".mp3" "a.jpg.jpgx" = "a.mp3.mp3x".
Proof. reflexivity. Qed.

Example uuid_str_example :
  Uuid.str (Uuid.uuid4 0) = "00000000-0000-4000-8000-000000000000".
Proof. vm_compute. reflexivity. Qed.

Example demo_run :
  fst (analyze_image (Mo := Demo.models) 0 Demo.photo Demo.empty_world) =
  Return (JSONResponse
            [("caption", "a photo of a dog");
             ("audio_url", "/audio/00000000-0000-4000-8000-000000000000.mp3")]).
Proof. vm_compute. reflexivity. Qed.

(** ** Facts about the string operations *)

Section StringFacts.

Lemma append_empty_r (s : string) : s ++ "" = s.
Proof. induction s as [|c s IH]; simpl; [reflexivity | now rewrite IH]. Qed.

Lemma append_assoc (a b c : string) : (a ++ b) ++ c = a ++ b ++ c.
Proof. induction a as [|x a IH]; simpl; [reflexivity | now rewrite IH]. Qed.

Lemma append_inv_head (a b c : string) : a ++ b = a ++ c -> b = c.
Proof.
  induction a as [|x a IH]; simpl; intros H; [exact H |].
  injection H as H. now apply IH.
Qed.

Lemma length_append (a b : string) :
  String.length (a ++ b) = (String.length a + String.length b)%nat.
Proof. induction a as [|x a IH]; simpl; [reflexivity | now rewrite IH]. Qed.

Lemma append_inv_tail (a b t : string) : a ++ t = b ++ t -> a = b.
Proof.
  revert b. induction a as [|x a IH]; intros [|y b] H; simpl in H.
  - reflexivity.
  - apply (f_equal String.length) in H. simpl in H.
    rewrite length_append in H. lia.
  - apply (f_equal String.length) in H. simpl in H.
    rewrite length_append in H. lia.
  - injection H as -> H. f_equal. now apply IH.
Qed.

Lemma split_not_nil (sep : ascii) (s : string) : PyStr.split sep s <> [].
Proof.
  destruct s as [|c s]; simpl; [discriminate |].
  destruct (Ascii.eqb c sep); [discriminate |].
  destruct (PyStr.split sep s); discriminate.
Qed.

Lemma split_no_sep (sep : ascii) (s : string) :
  PyStr.occurs sep s = false -> PyStr.split sep s = [s].
Proof.
  induction s as [|c s IH]; simpl; [reflexivity |].
  intros H. apply orb_false_iff in H as [Hc Hs].
  rewrite Hc, (IH Hs). reflexivity.
Qed.

Lemma split_app_sep (sep : ascii) (a b : string) :
  PyStr.split sep (a ++ String sep b) =
  (PyStr.split sep a ++ PyStr.split sep b)%list.
Proof.
  induction a as [|c a IH]; simpl.
  - now rewrite Ascii.eqb_refl.
  - destruct (Ascii.eqb c sep); rewrite IH; [reflexivity |].
    pose proof (split_not_nil sep a) as Hne.
    destruct (PyStr.split sep a); [contradiction | reflexivity].
Qed.

Lemma last_item_app (l1 l2 : list string) :
  l2 <> [] -> PyStr.last_item (l1 ++ l2)%list = PyStr.last_item l2.
Proof.
  unfold PyStr.last_item. intros Hne.
  induction l1 as [|x l1 IH]; simpl; [reflexivity |].
  rewrite <- IH. destruct (l1 ++ l2)%list eqn:E; [| reflexivity].
  apply app_eq_nil in E as [_ E]. contradiction.
Qed.

(** The part after the last separator. *)
Lemma last_split_app (sep : ascii) (a b : string) :
  PyStr.occurs sep b = false ->
  PyStr.last_item (PyStr.split sep (a ++ String sep b)) = b.
Proof.
  intros Hb. rewrite split_app_sep, last_item_app by apply split_not_nil.
  now rewrite (split_no_sep _ _ Hb).
Qed.

Lemma occurs_app (c : ascii) (a b : string) :
  PyStr.occurs c (a ++ b) = PyStr.occurs c a || PyStr.occurs c b.
Proof.
  induction a as [|x a IH]; simpl; [reflexivity |].
  now rewrite IH, orb_assoc.
Qed.

Lemma prefix_head_ne (c d : ascii) (o s : string) :
  Ascii.eqb d c = false -> String.prefix (String c o) (String d s) = false.
Proof.
  intros H. simpl. destruct (ascii_dec c d) as [->|]; [| reflexivity].
  now rewrite Ascii.eqb_refl in H.
Qed.

Lemma prefix_append (s t : string) : String.prefix s (s ++ t) = true.
Proof.
  induction s as [|c s IH]; simpl; [now destruct t |].
  destruct (ascii_dec c c); [exact IH | contradiction].
Qed.

Lemma replace_skip_all (old new t : string) :
  PyStr.replace_from old new (String.length t) t = "".
Proof. induction t as [|c t IH]; simpl; [reflexivity | exact IH]. Qed.

Lemma replace_from_no_occ (c : ascii) (o new s t : string) :
  PyStr.occurs c s = false ->
  PyStr.replace_from (String c o) new 0 (s ++ t) =
  s ++ PyStr.replace_from (String c o) new 0 t.
Proof.
  induction s as [|d s IH]; intros H; [reflexivity |].
  simpl in H. apply orb_false_iff in H as [Hd Hs].
  change (String d s ++ t) with (String d (s ++ t)).
  cbn [PyStr.replace_from]. rewrite (prefix_head_ne _ _ _ _ Hd), (IH Hs).
  reflexivity.
Qed.

(** Replacing a suffix whose first character occurs nowhere before it. *)
Lemma replace_suffix (c : ascii) (o new s : string) :
  PyStr.occurs c s = false ->
  PyStr.replace (String c o) new (s ++ String c o) = s ++ new.
Proof.
  intros H. unfold PyStr.replace. rewrite (replace_from_no_occ _ _ _ _ _ H).
  f_equal. cbn [PyStr.replace_from].
  pose proof (prefix_append (String c o) "") as Hp.
  rewrite append_empty_r in Hp. rewrite Hp.
  cbn [String.length]. rewrite Nat.sub_succ, Nat.sub_0_r.
  now rewrite replace_skip_all, append_empty_r.
Qed.

Lemma join_upload_dir (name : string) :
  PyStr.startswith "/" name = false ->
  OsPath.join UPLOAD_DIR name = "uploads/" ++ name.
Proof. intros H. unfold OsPath.join. rewrite H. reflexivity. Qed.

Lemma all_chars_app (P : ascii -> bool) (a b : string) :
  all_chars P (a ++ b) = all_chars P a && all_chars P b.
Proof.
  induction a as [|c a IH]; simpl; [reflexivity |].
  now rewrite IH, andb_assoc.
Qed.

Lemma all_chars_substring (P : ascii -> bool) (s : string) :
  all_chars P s = true -> forall n m, all_chars P (substring n m s) = true.
Proof.
  induction s as [|c s IH]; intros H n m.
  - destruct n, m; reflexivity.
  - simpl in H. apply andb_true_iff in H as [Hc Hs].
    destruct n as [|n]; simpl.
    + destruct m as [|m]; simpl; [reflexivity |].
      now rewrite Hc, IH.
    + now apply IH.
Qed.

Lemma all_chars_not_occurs (P : ascii -> bool) (c : ascii) (s : string) :
  all_chars P s = true -> P c = false -> PyStr.occurs c s = false.
Proof.
  intros Hs Hc. induction s as [|d s IH]; simpl; [reflexivity |].
  simpl in Hs. apply andb_true_iff in Hs as [Hd Hs].
  rewrite (IH Hs), orb_false_r.
  destruct (Ascii.eqb_spec d c) as [->|]; [congruence | reflexivity].
Qed.

End StringFacts.

(** ** Facts about the generated identifier *)

Section UuidFacts.

Lemma hex_digit_ok (d : N) : is_hex_or_dash (Uuid.hex_digit d) = true.
Proof.
  destruct d as [|p]; [reflexivity |].
  do 4 (destruct p as [p|p|]; try reflexivity).
Qed.

Lemma hex_fixed_chars (w : nat) (n : N) :
  all_chars is_hex_or_dash (Uuid.hex_fixed w n) = true.
Proof.
  induction w as [|w IH]; simpl; [reflexivity |].
  now rewrite hex_digit_ok, IH.
Qed.

Lemma hex_fixed_length (w : nat) (n : N) : String.length (Uuid.hex_fixed w n) = w.
Proof. induction w as [|w IH]; simpl; [reflexivity | now rewrite IH]. Qed.

Lemma str_chars (n : N) : all_chars is_hex_or_dash (Uuid.str n) = true.
Proof.
  unfold Uuid.str, Uuid.hyphenate.
  pose proof (all_chars_substring _ _ (hex_fixed_chars 32 n)) as Hsub.
  repeat (rewrite all_chars_app; apply andb_true_iff; split);
    solve [apply Hsub | reflexivity].
Qed.

(** The identifier contains neither a dot nor a slash. *)
Lemma str_no_dot (n : N) : PyStr.occurs "." (Uuid.str n) = false.
Proof. apply (all_chars_not_occurs _ _ _ (str_chars n)). reflexivity. Qed.

Lemma str_no_slash (n : N) : PyStr.occurs "/" (Uuid.str n) = false.
Proof. apply (all_chars_not_occurs _ _ _ (str_chars n)). reflexivity. Qed.

Lemma unhex_digit (d acc : N) (s : string) :
  (d < 16)%N ->
  unhex_from acc (String (Uuid.hex_digit d) s) = unhex_from (16 * acc + d) s.
Proof.
  intros Hd.
  assert (d = 0 \/ d = 1 \/ d = 2 \/ d = 3 \/ d = 4 \/ d = 5 \/ d = 6 \/ d = 7 \/
          d = 8 \/ d = 9 \/ d = 10 \/ d = 11 \/ d = 12 \/ d = 13 \/ d = 14 \/
          d = 15)%N as Hcases by lia.
  repeat (destruct Hcases as [-> | Hcases]; [reflexivity |]).
  subst d. reflexivity.
Qed.

Lemma unhex_hex_fixed (w : nat) (n acc : N) :
  unhex_from acc (Uuid.hex_fixed w n) =
  (acc * 16 ^ N.of_nat w + n mod 16 ^ N.of_nat w)%N.
Proof.
  revert acc. induction w as [|w IH]; intros acc.
  - simpl. rewrite N.mod_1_r. lia.
  - cbn [Uuid.hex_fixed]. rewrite unhex_digit by (apply N.mod_lt; lia).
    rewrite IH, Nat2N.inj_succ, N.pow_succ_r'.
    rewrite (N.mul_comm 16 (16 ^ N.of_nat w)), N.Div0.mod_mul_r. ring.
Qed.

Lemma hyphenate_inj (h1 h2 : string) :
  String.length h1 = 32 -> String.length h2 = 32 ->
  Uuid.hyphenate h1 = Uuid.hyphenate h2 -> h1 = h2.
Proof.
  intros L1 L2.
  do 32 (destruct h1 as [|? h1]; [discriminate L1 |]).
  destruct h1; [| discriminate L1].
  do 32 (destruct h2 as [|? h2]; [discriminate L2 |]).
  destruct h2; [| discriminate L2].
  unfold Uuid.hyphenate. cbn. intros H. congruence.
Qed.

(** [str] is injective on 128-bit integers. *)
Lemma str_inj (n1 n2 : N) :
  (n1 < 2 ^ 128)%N -> (n2 < 2 ^ 128)%N -> Uuid.str n1 = Uuid.str n2 -> n1 = n2.
Proof.
  intros H1 H2 H. unfold Uuid.str in H.
  apply hyphenate_inj in H; try apply hex_fixed_length.
  apply (f_equal (unhex_from 0)) in H. rewrite !unhex_hex_fixed in H.
  change (16 ^ N.of_nat 32)%N with (2 ^ 128)%N in H.
  rewrite !N.mod_small in H by assumption. lia.
Qed.

Lemma lt_pow2_bits (a n : N) :
  (a < 2 ^ n)%N <-> (forall m, (n <= m)%N -> N.testbit a m = false).
Proof.
  split.
  - intros H m Hm. rewrite <- (N.mod_small a (2 ^ n)) by assumption.
    now apply N.mod_pow2_bits_high.
  - intros H. assert (a mod 2 ^ n = a)%N as <-.
    { apply N.bits_inj. intros m. destruct (N.lt_ge_cases m n) as [Hlt | Hge].
      - now apply N.mod_pow2_bits_low.
      - rewrite N.mod_pow2_bits_high by assumption. symmetry. now apply H. }
    apply N.mod_lt. apply N.pow_nonzero. discriminate.
Qed.

Lemma lor_lt_pow2 (a b n : N) :
  (a < 2 ^ n)%N -> (b < 2 ^ n)%N -> (N.lor a b < 2 ^ n)%N.
Proof.
  rewrite !lt_pow2_bits. intros Ha Hb m Hm.
  now rewrite N.lor_spec, Ha, Hb.
Qed.

Lemma ldiff_lt_pow2 (a b n : N) : (a < 2 ^ n)%N -> (N.ldiff a b < 2 ^ n)%N.
Proof.
  rewrite !lt_pow2_bits. intros Ha m Hm.
  now rewrite N.ldiff_spec, Ha.
Qed.

(** A generated identifier is a 128-bit integer. *)
Lemma uuid4_bound (r : N) : (Uuid.uuid4 r < 2 ^ 128)%N.
Proof.
  unfold Uuid.uuid4.
  apply lor_lt_pow2; [| reflexivity].
  apply ldiff_lt_pow2, lor_lt_pow2; [| reflexivity].
  apply ldiff_lt_pow2, N.mod_lt. discriminate.
Qed.

End UuidFacts.

(** ** Frame facts: what each step leaves alone *)

Section Frame.

Context {E F A B : Type}.

Lemma keeps_disk_ret (a : A) : keeps_disk (@ret E A a).
Proof. intros w. reflexivity. Qed.

Lemma keeps_disk_raise (e : E) : keeps_disk (@raise E A e).
Proof. intros w. reflexivity. Qed.

Lemma keeps_disk_bind (m : M E A) (k : A -> M E B) :
  keeps_disk m -> (forall a, keeps_disk (k a)) -> keeps_disk (bind m k).
Proof.
  intros Hm Hk w. unfold bind. specialize (Hm w).
  destruct (m w) as [[a | e] w1]; simpl in *; [| exact Hm].
  now rewrite Hk.
Qed.

Lemma keeps_disk_try (m : M E A) (h : E -> M F A) :
  keeps_disk m -> (forall e, keeps_disk (h e)) -> keeps_disk (try_except m h).
Proof.
  intros Hm Hh w. unfold try_except. specialize (Hm w).
  destruct (m w) as [[a | e] w1]; simpl in *; [exact Hm |].
  now rewrite Hh.
Qed.

Lemma keeps_disk_logger (line : string) : keeps_disk (@logger_error E line).
Proof. intros w. reflexivity. Qed.

End Frame.

Lemma keeps_disk_call {A} (r : string + A) : keeps_disk (call r).
Proof. intros w. destruct r; reflexivity. Qed.

Lemma keeps_disk_invoke (c : ModelCall) : keeps_disk (invoke c).
Proof. intros w. reflexivity. Qed.

Lemma keeps_disk_read (path : string) : keeps_disk (read_file path).
Proof. intros w. unfold read_file. destruct (disk w !! path); reflexivity. Qed.

Create HintDb frame.
#[local] Hint Resolve keeps_disk_ret keeps_disk_raise keeps_disk_logger
  keeps_disk_call keeps_disk_invoke keeps_disk_read : frame.

Ltac frame_steps :=
  repeat first
    [ apply keeps_disk_bind; [ | intros ? ]
    | apply keeps_disk_try; [ | intros ? ]
    | solve [ auto with frame ] ].

Section Pipeline.

Context `{Mo : Models}.

Lemma describe_scene_try_keeps_disk path thr n :
  keeps_disk (describe_scene_try path thr n).
Proof. unfold describe_scene_try. frame_steps. Qed.

Lemma describe_scene_keeps_disk path thr n : keeps_disk (describe_scene path thr n).
Proof.
  unfold describe_scene. frame_steps.
Qed.

(** How [describe_scene] ends, from how its [try] block ends. *)
Lemma describe_scene_unfold path thr n w :
  describe_scene path thr n w =
  match describe_scene_try path thr n w with
  | (Return locals, w1) => (Return (caption locals), w1)
  | (Raise msg, w1) =>
      (Raise (HTTPException 500 ("Error in scene description: " ++ msg)),
       log_line ("Error in scene description: " ++ msg) w1)
  end.
Proof.
  unfold describe_scene, try_except, bind.
  destruct (describe_scene_try path thr n w) as [[locals | msg] w1]; reflexivity.
Qed.

End Pipeline.

(** ** The paths [analyze_image] builds *)

Section Paths.

Lemma elem_of_allowed (x : string) :
  x ∈ allowed_extensions <-> x = "jpg" \/ x = "jpeg" \/ x = "png".
Proof.
  unfold allowed_extensions. rewrite !elem_of_union, !elem_of_singleton. tauto.
Qed.

Lemma str_startswith (n : N) (t : string) :
  PyStr.startswith "/" (Uuid.str n ++ t) = false.
Proof.
  unfold Uuid.str.
  change (Uuid.hex_fixed 32 n) with
    (String (Uuid.hex_digit ((n / 16 ^ N.of_nat 31) mod 16)) (Uuid.hex_fixed 31 n)).
  pose proof (hex_digit_ok ((n / 16 ^ N.of_nat 31) mod 16)) as Hd.
  generalize dependent (Uuid.hex_digit ((n / 16 ^ N.of_nat 31) mod 16)).
  generalize (Uuid.hex_fixed 31 n). intros rest d Hd.
  unfold Uuid.hyphenate. simpl.
  destruct (Ascii.eqb_spec d "/") as [-> |]; [discriminate Hd | reflexivity].
Qed.

Lemma file_path_eq (r : N) (ext : string) :
  OsPath.join UPLOAD_DIR (Uuid.str (Uuid.uuid4 r) ++ "." ++ ext) =
  "uploads/" ++ stem_of r ++ "." ++ ext.
Proof. apply join_upload_dir, str_startswith. Qed.

Lemma tts_file_eq (r : N) (ext : string) :
  PyStr.replace ("." ++ ext) ".mp3" ("uploads/" ++ stem_of r ++ "." ++ ext) =
  audio_path r.
Proof.
  unfold audio_path.
  change ("." ++ ext) with (String "." ext).
  rewrite <- (append_assoc "uploads/" (stem_of r) (String "." ext)).
  rewrite replace_suffix; [apply append_assoc |].
  rewrite occurs_app. unfold stem_of. now rewrite str_no_dot.
Qed.

Lemma basename_audio (r : N) : OsPath.basename (audio_path r) = stem_of r ++ ".mp3".
Proof.
  unfold OsPath.basename, audio_path.
  change ("uploads/" ++ stem_of r ++ ".mp3")
    with ("uploads" ++ String "/" (stem_of r ++ ".mp3")).
  apply last_split_app. rewrite occurs_app. unfold stem_of.
  now rewrite str_no_slash.
Qed.

Lemma upload_path_ne_audio (r : N) (name : string) :
  upload_ext name ∈ allowed_extensions -> upload_path r name <> audio_path r.
Proof.
  intros Hext Heq. unfold upload_path, audio_path in Heq.
  apply append_inv_head, append_inv_head in Heq.
  apply elem_of_allowed in Hext.
  injection Heq as Heq. rewrite Heq in Hext.
  destruct Hext as [H | [H | H]]; inversion H.
Qed.

Lemma split_dotless (name : string) :
  PyStr.occurs "." name = false -> upload_ext name = PyStr.lower name.
Proof. intros H. unfold upload_ext. now rewrite split_no_sep. Qed.

End Paths.

(** ** Runs of [analyze_image] *)

Section Runs.

Context `{Mo : Models}.

(** A rejected extension ends the request at once. *)
Lemma analyze_bad_ext r upload w :
  upload_ext (filename upload) ∉ allowed_extensions ->
  analyze_image r upload w = (Raise (HTTPException 422 invalid_type_detail), w).
Proof.
  intros Hext. unfold analyze_image, analyze_image_try, try_except.
  fold (upload_ext (filename upload)).
  rewrite bool_decide_false by assumption. reflexivity.
Qed.

(** So does a file over the limit, once its extension is accepted. *)
Lemma analyze_too_large r upload w :
  upload_ext (filename upload) ∈ allowed_extensions ->
  (max_file_size < Z.of_nat (length (file upload)))%Z ->
  analyze_image r upload w = (Raise (HTTPException 422 too_large_detail), w).
Proof.
  intros Hext Hsize. unfold analyze_image, analyze_image_try, try_except.
  fold (upload_ext (filename upload)).
  rewrite bool_decide_true by assumption. cbn [negb].
  destruct (Z.gtb_spec (Z.of_nat (length (file upload))) max_file_size);
    [reflexivity | lia].
Qed.

(** An accepted upload is stored, described and spoken, in this order. *)
Lemma analyze_accepted r upload w :
  upload_ext (filename upload) ∈ allowed_extensions ->
  (Z.of_nat (length (file upload)) <= max_file_size)%Z ->
  analyze_image r upload w =
  match describe_scene_default (upload_path r (filename upload)) (stored r upload w) with
  | (Raise e, w2) => (Raise e, w2)
  | (Return caption, w2) => synthesis r caption w2
  end.
Proof.
  intros Hext Hsize. unfold analyze_image, analyze_image_try, try_except.
  fold (upload_ext (filename upload)).
  rewrite bool_decide_true by assumption. cbn [negb].
  destruct (Z.gtb_spec (Z.of_nat (length (file upload))) max_file_size); [lia |].
  rewrite file_path_eq, tts_file_eq, basename_audio.
  unfold bind at 1. unfold write_file at 1. fold (upload_path r (filename upload)).
  fold (stored r upload w).
  unfold bind at 1. unfold describe_scene_default.
  rewrite describe_scene_unfold.
  destruct (describe_scene_try _ _ _ _) as [[locals | msg] w2]; [| reflexivity].
  unfold synthesis, bind, plain, try_except, tts_save, invoke, call, write_file,
    ret, raise, logger_error, log_line. cbn [disk invoked logged].
  destruct (gTTS (caption locals)) as [msg | tts]; [reflexivity |].
  destruct (snd (gTTS_save tts)); reflexivity.
Qed.

End Runs.

(** ** Validation of the upload *)

Section Validation.

Context `{Mo : Models}.

Lemma synthesis_status r caption w2 :
  status_of (fst (synthesis r caption w2)) = 200%Z \/
  status_of (fst (synthesis r caption w2)) = 500%Z.
Proof.
  unfold synthesis. destruct (gTTS caption) as [msg | tts]; [now right |].
  destruct (snd (gTTS_save tts)); [now right | now left].
Qed.

(** Past validation the request ends in a 200 or a 500. *)
Lemma analyze_accepted_status r upload w :
  upload_ext (filename upload) ∈ allowed_extensions ->
  (Z.of_nat (length (file upload)) <= max_file_size)%Z ->
  status_of (fst (analyze_image r upload w)) = 200%Z \/
  status_of (fst (analyze_image r upload w)) = 500%Z.
Proof.
  intros Hext Hsize. rewrite analyze_accepted by assumption.
  unfold describe_scene_default. rewrite describe_scene_unfold.
  destruct (describe_scene_try _ _ _ _) as [[locals | msg] w2];
    [apply synthesis_status | now right].
Qed.

(** C1: an upload whose extension, compared case-insensitively, is not one
    of jpg, jpeg, png, or whose byte length exceeds 5 MiB, is answered with
    status 422; no file is written, no model is invoked, and the state of
    the service (the files on disk included) is what it was. *)
Theorem C1_invalid_upload_rejected_unchanged r upload w :
  upload_ext (filename upload) ∉ allowed_extensions \/
  (5 * 1024 * 1024 < Z.of_nat (length (file upload)))%Z ->
  status_of (fst (analyze_image r upload w)) = 422%Z /\
  disk (snd (analyze_image r upload w)) = disk w /\
  invoked (snd (analyze_image r upload w)) = invoked w /\
  snd (analyze_image r upload w) = w.
Proof.
  intros Hbad.
  destruct (decide (upload_ext (filename upload) ∈ allowed_extensions)) as [Hin | Hout].
  - destruct Hbad as [Hbad | Hbig]; [contradiction |].
    rewrite analyze_too_large by assumption. repeat split.
  - rewrite analyze_bad_ext by assumption. repeat split.
Qed.

(** C6: with an allowed extension, the request is rejected with 422 exactly
    when the upload is strictly longer than 5 * 1024 * 1024 bytes; an upload
    of exactly that length is not rejected. *)
Theorem C6_size_limit_strict r upload w :
  upload_ext (filename upload) ∈ allowed_extensions ->
  (status_of (fst (analyze_image r upload w)) = 422%Z <->
   (5 * 1024 * 1024 < Z.of_nat (length (file upload)))%Z) /\
  (Z.of_nat (length (file upload)) = (5 * 1024 * 1024)%Z ->
   status_of (fst (analyze_image r upload w)) <> 422%Z).
Proof.
  intros Hext.
  assert ((Z.of_nat (length (file upload)) <= max_file_size)%Z ->
          status_of (fst (analyze_image r upload w)) <> 422%Z) as Hpass.
  { intros Hsize.
    destruct (analyze_accepted_status r upload w Hext Hsize) as [-> | ->];
      discriminate. }
  split.
  - split.
    + intros H422.
      destruct (Z.lt_ge_cases (5 * 1024 * 1024) (Z.of_nat (length (file upload))))
        as [Hbig | Hsmall]; [exact Hbig |].
      exfalso. apply Hpass; [exact Hsmall | exact H422].
    + intros Hbig. now rewrite analyze_too_large.
  - intros Heq. apply Hpass. unfold max_file_size. lia.
Qed.

(** C10: when both rules are broken, the answer is the 422 of the extension
    check, with its detail message, and not that of the size check. *)
Theorem C10_extension_checked_first r upload w :
  upload_ext (filename upload) ∉ allowed_extensions ->
  (5 * 1024 * 1024 < Z.of_nat (length (file upload)))%Z ->
  analyze_image r upload w =
    (Raise (HTTPException 422
              "Invalid file type. Only JPG, JPEG, and PNG are allowed."), w) /\
  fst (analyze_image r upload w) <>
    Raise (HTTPException 422 "File size exceeds the 5MB limit.").
Proof.
  intros Hext _. rewrite analyze_bad_ext by assumption.
  split; [reflexivity | discriminate].
Qed.

(** C9, as amended: a file name without a dot is its own extension,
    compared case-insensitively; the request is rejected as an invalid file
    type exactly when the lowercased name is none of jpg, jpeg, png, so the
    names jpg, jpeg and png pass the type check. *)
Theorem C9_dotless_name_is_extension r upload w :
  PyStr.occurs "." (filename upload) = false ->
  upload_ext (filename upload) = PyStr.lower (filename upload) /\
  (analyze_image r upload w = (Raise (HTTPException 422 invalid_type_detail), w) <->
   PyStr.lower (filename upload) ∉ allowed_extensions) /\
  (filename upload = "jpg" \/ filename upload = "jpeg" \/ filename upload = "png" ->
   fst (analyze_image r upload w) <> Raise (HTTPException 422 invalid_type_detail)).
Proof.
  intros Hdot. pose proof (split_dotless _ Hdot) as Hext.
  assert (PyStr.lower (filename upload) ∈ allowed_extensions ->
          fst (analyze_image r upload w) <>
          Raise (HTTPException 422 invalid_type_detail)) as Hpass.
  { intros Hin. rewrite <- Hext in Hin.
    destruct (Z.lt_ge_cases max_file_size (Z.of_nat (length (file upload))))
      as [Hbig | Hsmall].
    - rewrite analyze_too_large by assumption. discriminate.
    - destruct (analyze_accepted_status r upload w Hin Hsmall) as [H | H];
        intros Heq; rewrite Heq in H; discriminate H. }
  split; [exact Hext |]. split.
  - split.
    + intros Hrej Hin. apply (Hpass Hin). now rewrite Hrej.
    + intros Hout. apply analyze_bad_ext. now rewrite Hext.
  - intros Hname. apply Hpass, elem_of_allowed.
    destruct Hname as [-> | [-> | ->]]; simpl; tauto.
Qed.

End Validation.

(** ** The error boundary of [describe_scene] *)

Section ErrorBoundary.

Context `{Mo : Models}.

(** A file that cannot be decoded. *)
Lemma decode_failure_is_500 path thr n w data msg :
  disk w !! path = Some data -> Image_open data = inl msg ->
  describe_scene path thr n w =
  (Raise (HTTPException 500 ("Error in scene description: " ++ msg)),
   log_line ("Error in scene description: " ++ msg) w).
Proof.
  intros Hfile Hopen. rewrite describe_scene_unfold.
  unfold describe_scene_try, bind, read_file. rewrite Hfile, Hopen.
  destruct w; reflexivity.
Qed.

(** A detector that raises: it has been invoked, the captioner has not. *)
Lemma detector_failure_is_500 path thr n w data opened img tensor msg :
  disk w !! path = Some data -> Image_open data = inr opened ->
  convert_RGB opened = inr img -> to_input_tensor img = inr tensor ->
  object_detector tensor = inl msg ->
  describe_scene path thr n w =
  (Raise (HTTPException 500 ("Error in scene description: " ++ msg)),
   log_line ("Error in scene description: " ++ msg)
     (mkWorld (disk w) (Detector :: invoked w) (logged w))).
Proof.
  intros Hfile Hopen Hrgb Htensor Hdetect. rewrite describe_scene_unfold.
  unfold describe_scene_try, bind, read_file.
  rewrite Hfile, Hopen. cbn. rewrite Hrgb. cbn. rewrite Htensor. cbn.
  rewrite Hdetect. reflexivity.
Qed.

(** C2: [describe_scene] raises exactly when its [try] block (decode,
    detection, caption generation) raises, and then what it raises is an
    [HTTPException] of status 500 whose detail is the original message
    after a fixed prefix; nothing else is raised at this boundary. *)
Theorem C2_pipeline_exception_becomes_500 path thr n w e w' :
  describe_scene path thr n w = (Raise e, w') <->
  exists msg w1,
    describe_scene_try path thr n w = (Raise msg, w1) /\
    e = HTTPException 500 ("Error in scene description: " ++ msg) /\
    w' = log_line ("Error in scene description: " ++ msg) w1.
Proof.
  rewrite describe_scene_unfold.
  destruct (describe_scene_try path thr n w) as [[locals | msg] w1].
  - split; [discriminate |]. intros (m & w0 & H & _). discriminate H.
  - split.
    + intros H. injection H as <- <-. now exists msg, w1.
    + intros (m & w0 & H & -> & ->). now injection H as -> ->.
Qed.

(** The request handler passes that exception on as it is. *)
Lemma analyze_passes_pipeline_error r upload w e w2 :
  upload_ext (filename upload) ∈ allowed_extensions ->
  (Z.of_nat (length (file upload)) <= max_file_size)%Z ->
  describe_scene_default (upload_path r (filename upload)) (stored r upload w) =
    (Raise e, w2) ->
  analyze_image r upload w = (Raise e, w2).
Proof. intros Hext Hsize H. rewrite analyze_accepted by assumption. now rewrite H. Qed.

End ErrorBoundary.

(** ** The retrieval endpoint *)

Section Retrieval.

(** An absolute name escapes the upload directory: the route, which matches
    one path segment, never passes one. *)
Lemma join_absolute (name : string) :
  PyStr.startswith "/" name = true -> OsPath.join UPLOAD_DIR name = name.
Proof. intros H. unfold OsPath.join. now rewrite H. Qed.





End Retrieval.

(** ** Successful and failed requests *)

Section Outcomes.

Context `{Mo : Models}.

(** A request that is answered has passed both checks. *)
Lemma analyze_return_valid r upload w resp w' :
  analyze_image r upload w = (Return resp, w') ->
  upload_ext (filename upload) ∈ allowed_extensions /\
  (Z.of_nat (length (file upload)) <= max_file_size)%Z.
Proof.
  intros Hrun.
  destruct (decide (upload_ext (filename upload) ∈ allowed_extensions)) as [Hin | Hout].
  - split; [exact Hin |].
    destruct (Z.lt_ge_cases max_file_size (Z.of_nat (length (file upload))))
      as [Hbig | Hsmall]; [| exact Hsmall].
    rewrite analyze_too_large in Hrun by assumption. discriminate Hrun.
  - rewrite analyze_bad_ext in Hrun by assumption. discriminate Hrun.
Qed.

(** What a successful request has done. *)
Lemma analyze_success r upload w resp w' :
  analyze_image r upload w = (Return resp, w') ->
  exists caption w2 tts,
    describe_scene_default (upload_path r (filename upload)) (stored r upload w) =
      (Return caption, w2) /\
    gTTS caption = inr tts /\
    resp = JSONResponse [("caption", caption);
                         ("audio_url", "/audio/" ++ stem_of r ++ ".mp3")] /\
    disk w' = <[audio_path r := fst (gTTS_save tts)]>
                (<[upload_path r (filename upload) := file upload]> (disk w)).
Proof.
  intros Hrun. destruct (analyze_return_valid _ _ _ _ _ Hrun) as [Hext Hsize].
  rewrite analyze_accepted in Hrun by assumption.
  pose proof (describe_scene_keeps_disk (upload_path r (filename upload))
                score_0_6 50 (stored r upload w)) as Hdisk.
  unfold describe_scene_default in *.
  destruct (describe_scene _ _ _ _) as [[caption | e] w2]; [| discriminate Hrun].
  exists caption, w2. unfold synthesis in Hrun.
  destruct (gTTS caption) as [msg | tts]; [discriminate Hrun |].
  exists tts. destruct (snd (gTTS_save tts)); [discriminate Hrun |].
  injection Hrun as <- <-. simpl in Hdisk. cbn [disk]. rewrite Hdisk.
  repeat split.
Qed.

(** What a request that failed after validation has left on disk. *)
Lemma analyze_failure r upload w e w' :
  upload_ext (filename upload) ∈ allowed_extensions ->
  (Z.of_nat (length (file upload)) <= max_file_size)%Z ->
  analyze_image r upload w = (Raise e, w') ->
  (exists detail, e = HTTPException 500 detail) /\
  (disk w' = <[upload_path r (filename upload) := file upload]> (disk w) \/
   exists partial,
     disk w' = <[audio_path r := partial]>
                 (<[upload_path r (filename upload) := file upload]> (disk w))).
Proof.
  intros Hext Hsize Hrun. rewrite analyze_accepted in Hrun by assumption.
  pose proof (describe_scene_keeps_disk (upload_path r (filename upload))
                score_0_6 50 (stored r upload w)) as Hdisk.
  unfold describe_scene_default in *. rewrite describe_scene_unfold in *.
  destruct (describe_scene_try _ _ _ _) as [[locals | msg] w2].
  - unfold synthesis in Hrun. simpl in Hdisk.
    destruct (gTTS (caption locals)) as [msg | tts].
    + injection Hrun as <- <-. split; [eauto |]. left. exact Hdisk.
    + destruct (snd (gTTS_save tts)); [| discriminate Hrun].
      injection Hrun as <- <-. split; [eauto |]. right.
      exists (fst (gTTS_save tts)). cbn [log_line disk]. now rewrite Hdisk.
  - injection Hrun as <- <-. split; [eauto |]. left. exact Hdisk.
Qed.

(** C3: a successful request answers with a JSON object of two strings,
    caption and audio_url; audio_url is /audio/ followed by the name of the
    stored image with its extension replaced by .mp3, that is the generated
    stem and .mp3; the image is on disk under that stem, and so is the
    audio. *)
Theorem C3_audio_url_has_image_stem r upload w resp w' :
  analyze_image r upload w = (Return resp, w') ->
  let stem := Uuid.str (Uuid.uuid4 r) in
  let ext := upload_ext (filename upload) in
  let image_name := stem ++ "." ++ ext in
  exists caption,
    resp = JSONResponse [("caption", caption);
                         ("audio_url", "/audio/" ++ stem ++ ".mp3")] /\
    PyStr.replace ("." ++ ext) ".mp3" image_name = stem ++ ".mp3" /\
    disk w' !! ("uploads/" ++ image_name) = Some (file upload) /\
    is_Some (disk w' !! ("uploads/" ++ stem ++ ".mp3")).
Proof.
  intros Hrun stem ext image_name.
  destruct (analyze_return_valid _ _ _ _ _ Hrun) as [Hext _].
  destruct (analyze_success _ _ _ _ _ Hrun) as (caption & w2 & tts & _ & _ & -> & Hdisk).
  exists caption. split; [reflexivity |]. split; [| split].
  - subst image_name. change ("." ++ ext) with (String "." ext).
    apply replace_suffix, str_no_dot.
  - rewrite Hdisk. rewrite lookup_insert_ne.
    + apply lookup_insert_eq.
    + intros Heq. now apply (upload_path_ne_audio r (filename upload)).
  - rewrite Hdisk. fold (stem_of r). fold (audio_path r).
    rewrite lookup_insert_eq. eauto.
Qed.

(** C7: when a request fails after its upload has been stored, in the
    description or in the synthesis, the answer is an error (a 500), the
    stored upload is still on disk with the uploaded bytes, and no file that
    was on disk has been removed. *)
Theorem C7_failed_request_keeps_upload r upload w e w' :
  upload_ext (filename upload) ∈ allowed_extensions ->
  (Z.of_nat (length (file upload)) <= 5 * 1024 * 1024)%Z ->
  analyze_image r upload w = (Raise e, w') ->
  status_of (Raise e) = 500%Z /\
  disk w' !! ("uploads/" ++ Uuid.str (Uuid.uuid4 r) ++ "." ++
              upload_ext (filename upload)) = Some (file upload) /\
  (forall p, is_Some (disk w !! p) -> is_Some (disk w' !! p)).
Proof.
  intros Hext Hsize Hrun.
  destruct (analyze_failure _ _ _ _ _ Hext Hsize Hrun) as [[detail ->] Hdisk].
  split; [reflexivity |].
  fold (stem_of r). fold (upload_path r (filename upload)).
  pose proof (upload_path_ne_audio r _ Hext) as Hne.
  destruct Hdisk as [-> | [partial ->]].
  - split; [apply lookup_insert_eq |].
    intros p Hp. rewrite lookup_insert. case_decide; eauto.
  - split.
    + rewrite lookup_insert_ne by (intros Heq; now apply Hne).
      apply lookup_insert_eq.
    + intros p Hp. rewrite !lookup_insert. repeat case_decide; eauto.
Qed.

(** C8, as amended: the audio_url values of two successful requests differ
    exactly when the identifiers generated for them differ, whatever was
    uploaded, the same bytes under the same name included; no collision of
    identifiers is looked for. *)
Theorem C8_audio_urls_differ_iff_identifiers_differ
    r1 r2 upload1 upload2 w1 w2 resp1 resp2 w1' w2' :
  analyze_image r1 upload1 w1 = (Return resp1, w1') ->
  analyze_image r2 upload2 w2 = (Return resp2, w2') ->
  (exists url1 url2,
     audio_url_of resp1 = Some url1 /\ audio_url_of resp2 = Some url2 /\
     (url1 = url2 <-> Uuid.uuid4 r1 = Uuid.uuid4 r2)) /\
  (audio_url_of resp1 <> audio_url_of resp2 <-> Uuid.uuid4 r1 <> Uuid.uuid4 r2).
Proof.
  intros Hrun1 Hrun2.
  destruct (analyze_success _ _ _ _ _ Hrun1) as (c1 & ? & ? & _ & _ & -> & _).
  destruct (analyze_success _ _ _ _ _ Hrun2) as (c2 & ? & ? & _ & _ & -> & _).
  assert ("/audio/" ++ stem_of r1 ++ ".mp3" = "/audio/" ++ stem_of r2 ++ ".mp3" <->
          Uuid.uuid4 r1 = Uuid.uuid4 r2) as Hiff.
  { split.
    - intros Heq. apply append_inv_head, append_inv_tail in Heq.
      apply str_inj; try apply uuid4_bound. exact Heq.
    - intros Heq. unfold stem_of. now rewrite Heq. }
  assert (audio_url_of
            (JSONResponse [("caption", c1);
                           ("audio_url", "/audio/" ++ stem_of r1 ++ ".mp3")]) =
          audio_url_of
            (JSONResponse [("caption", c2);
                           ("audio_url", "/audio/" ++ stem_of r2 ++ ".mp3")]) <->
          "/audio/" ++ stem_of r1 ++ ".mp3" = "/audio/" ++ stem_of r2 ++ ".mp3")
    as Hsome.
  { change (Some ("/audio/" ++ stem_of r1 ++ ".mp3") =
            Some ("/audio/" ++ stem_of r2 ++ ".mp3") <->
            "/audio/" ++ stem_of r1 ++ ".mp3" = "/audio/" ++ stem_of r2 ++ ".mp3").
    split; [apply (inj Some) | intros Heq; now f_equal]. }
  split.
  - exists ("/audio/" ++ stem_of r1 ++ ".mp3"), ("/audio/" ++ stem_of r2 ++ ".mp3").
    split; [reflexivity |]. split; [reflexivity | exact Hiff].
  - rewrite Hsome, Hiff. reflexivity.
Qed.

End Outcomes.

(** ** The scene-description pipeline *)

Section Description.

Context `{Mo : Models}.

(** Indexing by the mask of a threshold keeps the entries whose score
    passes it, and those only. *)
Lemma mask_select_threshold {A S} (f : S -> bool) (xs : list A) (ss : list S)
    (l : list A) :
  mask_select xs (map f ss) = inr l ->
  length xs = length ss /\
  forall x, x ∈ l <->
    exists i s, xs !! i = Some x /\ ss !! i = Some s /\ f s = true.
Proof.
  unfold mask_select. rewrite length_map.
  destruct (Nat.eqb_spec (length xs) (length ss)) as [Hlen | Hlen];
    [| discriminate].
  intros H. injection H as <-. split; [exact Hlen |]. intros x.
  change (map fst ?l) with (fst <$> l). change (map f ss) with (f <$> ss).
  rewrite list_elem_of_fmap. split.
  - intros ([y k] & -> & Hin). apply list_elem_of_filter in Hin as [Hk Hin].
    simpl in Hk. subst k. apply list_elem_of_lookup in Hin as [i Hi].
    apply lookup_zip_with_Some in Hi as (x & k & Heq & Hx & Hk).
    injection Heq as <- <-.
    apply list_lookup_fmap_Some in Hk as (s & Hs & Hfs).
    exists i, s. simpl. auto.
  - intros (i & s & Hx & Hs & Hfs). exists (x, true). split; [reflexivity |].
    apply list_elem_of_filter. split; [reflexivity |].
    apply list_elem_of_lookup. exists i.
    apply lookup_zip_with_Some. exists x, true. split; [reflexivity |].
    split; [exact Hx |]. rewrite list_lookup_fmap, Hs. simpl. now rewrite Hfs.
Qed.

Lemma mask_select_length {A S} (f g : S -> bool) (xs : list A) (ss : list S) :
  (exists l1 l2, mask_select xs (map f ss) = inr l1 /\
                 mask_select xs (map g ss) = inr l2) \/
  (exists msg, mask_select xs (map f ss) = inl msg /\
               mask_select xs (map g ss) = inl msg).
Proof.
  unfold mask_select. rewrite !length_map.
  destruct (length xs =? length ss)%nat; [left | right]; eauto.
Qed.

(** The threshold has no bearing on what [describe_scene] returns or
    raises, nor on the state it ends in. *)
Lemma describe_scene_threshold_irrelevant path thr1 thr2 n w :
  describe_scene path thr1 n w = describe_scene path thr2 n w.
Proof.
  rewrite !describe_scene_unfold. unfold describe_scene_try, bind, read_file.
  destruct (disk w !! path) as [data |]; [| reflexivity].
  destruct (Image_open data) as [m | opened]; cbn; [reflexivity |].
  destruct (convert_RGB opened) as [m | img]; cbn; [reflexivity |].
  destruct (to_input_tensor img) as [m | tensor]; cbn; [reflexivity |].
  destruct (object_detector tensor) as [m | d]; cbn; [reflexivity |].
  destruct (mask_select_length (fun s => score_ge s thr1) (fun s => score_ge s thr2)
              (boxes d) (scores d)) as [(b1 & b2 & -> & ->) | (m & -> & ->)];
    cbn; [| reflexivity].
  destruct (mask_select_length (fun s => score_ge s thr1) (fun s => score_ge s thr2)
              (labels d) (scores d)) as [(l1 & l2 & -> & ->) | (m & -> & ->)];
    cbn; [| reflexivity].
  destruct (caption_processor img "") as [m | inputs]; cbn; [reflexivity |].
  destruct (caption_generate inputs n) as [m | ids]; cbn; [reflexivity |].
  destruct (caption_decode ids true) as [m | c]; reflexivity.
Qed.

(** When every step succeeds the caption is returned, the detector and then
    the captioner having been invoked. *)
Lemma describe_scene_returns path thr n w data opened img tensor d inputs ids c :
  disk w !! path = Some data -> Image_open data = inr opened ->
  convert_RGB opened = inr img -> to_input_tensor img = inr tensor ->
  object_detector tensor = inr d ->
  length (boxes d) = length (scores d) -> length (labels d) = length (scores d) ->
  caption_processor img "" = inr inputs -> caption_generate inputs n = inr ids ->
  caption_decode ids true = inr c ->
  describe_scene path thr n w =
  (Return c, mkWorld (disk w) (Captioner :: Detector :: invoked w) (logged w)).
Proof.
  intros Hfile Hopen Hrgb Htensor Hdet Hb Hl Hproc Hgen Hdec.
  rewrite describe_scene_unfold. unfold describe_scene_try, bind, read_file.
  rewrite Hfile, Hopen. cbn. rewrite Hrgb. cbn. rewrite Htensor. cbn.
  rewrite Hdet. cbn. unfold mask_select. rewrite !length_map, Hb, Hl.
  rewrite Nat.eqb_refl. cbn. rewrite Hproc. cbn. rewrite Hgen. cbn.
  rewrite Hdec. reflexivity.
Qed.

(** What a [try] block that ran to its end has done. *)
Lemma describe_scene_try_inv path thr n w locals w' :
  describe_scene_try path thr n w = (Return locals, w') ->
  exists data opened tensor d inputs,
    disk w !! path = Some data /\
    Image_open data = inr opened /\
    convert_RGB opened = inr (image locals) /\
    to_input_tensor (image locals) = inr tensor /\
    object_detector tensor = inr d /\
    mask_select (boxes d) (map (fun s => score_ge s thr) (scores d)) =
      inr (bboxes locals) /\
    mask_select (labels d) (map (fun s => score_ge s thr) (scores d)) =
      inr (kept_labels locals) /\
    caption_processor (image locals) "" = inr inputs /\
    caption_generate inputs n = inr (generated_ids locals) /\
    caption_decode (generated_ids locals) true = inr (caption locals) /\
    w' = mkWorld (disk w) (Captioner :: Detector :: invoked w) (logged w).
Proof.
  intros Htry. unfold describe_scene_try, bind, read_file in Htry.
  destruct (disk w !! path) as [data |]; [| discriminate Htry].
  destruct (Image_open data) as [m | opened] eqn:Hopen; cbn in Htry;
    [discriminate Htry |].
  destruct (convert_RGB opened) as [m | img] eqn:Hrgb; cbn in Htry;
    [discriminate Htry |].
  destruct (to_input_tensor img) as [m | tensor] eqn:Htensor; cbn in Htry;
    [discriminate Htry |].
  destruct (object_detector tensor) as [m | d] eqn:Hdet; cbn in Htry;
    [discriminate Htry |].
  destruct (mask_select (boxes d) _) as [m | bs] eqn:Hbs; cbn in Htry;
    [discriminate Htry |].
  destruct (mask_select (labels d) _) as [m | ls] eqn:Hls; cbn in Htry;
    [discriminate Htry |].
  destruct (caption_processor img "") as [m | inputs] eqn:Hproc; cbn in Htry;
    [discriminate Htry |].
  destruct (caption_generate inputs n) as [m | ids] eqn:Hgen; cbn in Htry;
    [discriminate Htry |].
  destruct (caption_decode ids true) as [m | cap] eqn:Hdec; cbn in Htry;
    [discriminate Htry |].
  injection Htry as <- <-. cbn.
  exists data, opened, tensor, d, inputs. repeat split; assumption.
Qed.

(** C4: [describe_scene] returns a caption exactly when the file at the
    path is decoded and converted to RGB, the detector has run on it, the
    captioner has run on the bitmap with an empty prompt and the given
    maximal length, and the caption is the generated sequence decoded with
    special tokens skipped; it returns that string and nothing else.  The
    boxes and labels kept on the way are those whose score is at least the
    threshold, and those only; they stay local, and the outcome is the same
    under any threshold.  The defaults are 0.6 and 50. *)
Theorem C4_describe_scene_pipeline path thr n w :
  (forall c w',
     describe_scene path thr n w = (Return c, w') <->
     exists data opened img tensor d inputs ids,
       disk w !! path = Some data /\
       Image_open data = inr opened /\
       convert_RGB opened = inr img /\
       to_input_tensor img = inr tensor /\
       object_detector tensor = inr d /\
       length (boxes d) = length (scores d) /\
       length (labels d) = length (scores d) /\
       caption_processor img "" = inr inputs /\
       caption_generate inputs n = inr ids /\
       caption_decode ids true = inr c /\
       w' = mkWorld (disk w) (Captioner :: Detector :: invoked w) (logged w)) /\
  (forall locals w',
     describe_scene_try path thr n w = (Return locals, w') ->
     exists tensor d,
       to_input_tensor (image locals) = inr tensor /\
       object_detector tensor = inr d /\
       (forall b, b ∈ bboxes locals <->
          exists i s, boxes d !! i = Some b /\
                      scores d !! i = Some s /\ score_ge s thr = true) /\
       (forall l, l ∈ kept_labels locals <->
          exists i s, labels d !! i = Some l /\
                      scores d !! i = Some s /\ score_ge s thr = true) /\
       describe_scene path thr n w = (Return (caption locals), w')) /\
  (forall thr', describe_scene path thr' n w = describe_scene path thr n w) /\
  describe_scene_default path = describe_scene path score_0_6 50.
Proof.
  split; [| split; [| split]].
  - intros c w'. split.
    + intros Hrun. rewrite describe_scene_unfold in Hrun.
      destruct (describe_scene_try path thr n w) as [[locals | msg] w1] eqn:Htry;
        [| discriminate Hrun].
      injection Hrun as <- <-.
      destruct (describe_scene_try_inv _ _ _ _ _ _ Htry)
        as (data & opened & tensor & d & inputs & Hfile & Hopen & Hrgb & Htensor &
            Hdet & Hbs & Hls & Hproc & Hgen & Hdec & Hw).
      apply mask_select_threshold in Hbs as [Hb _].
      apply mask_select_threshold in Hls as [Hl _].
      exists data, opened, (image locals), tensor, d, inputs, (generated_ids locals).
      repeat split; assumption.
    + intros (data & opened & img & tensor & d & inputs & ids & Hfile & Hopen &
              Hrgb & Htensor & Hdet & Hb & Hl & Hproc & Hgen & Hdec & ->).
      now apply (describe_scene_returns path thr n w data opened img tensor d
                   inputs ids c).
  - intros locals w' Htry.
    destruct (describe_scene_try_inv _ _ _ _ _ _ Htry)
      as (data & opened & tensor & d & inputs & _ & _ & _ & Htensor & Hdet &
          Hbs & Hls & _).
    apply mask_select_threshold in Hbs as [_ Hbs].
    apply mask_select_threshold in Hls as [_ Hls].
    exists tensor, d. repeat split; try assumption; try apply Hbs; try apply Hls.
    rewrite describe_scene_unfold. now rewrite Htry.
  - intros thr'. apply describe_scene_threshold_irrelevant.
  - reflexivity.
Qed.

End Description.

(** ** Concrete requests against the small instance *)

Section Concrete.

Import Demo.

Ltac by_decision := apply (bool_decide_unpack _); vm_compute; exact I.

Example blank_upload_fails :
  fst (analyze_image 5 blank empty_world) =
  Raise (HTTPException 500 "Error in scene description: cannot identify image file").
Proof. vm_compute. reflexivity. Qed.

Example silent_upload_fails :
  fst (analyze_image 5 silent empty_world) =
  Raise (HTTPException 500 "Failed to process image: No text to speak").
Proof. vm_compute. reflexivity. Qed.

Example first_run_eq :
  first_run = (Return (response_of "00000000-0000-4000-8000-000000000000"),
               snd first_run).
Proof. vm_compute. reflexivity. Qed.

Example second_run_eq :
  second_run = (Return (response_of "00000000-0000-4000-8000-000000000001"),
                snd second_run).
Proof. vm_compute. reflexivity. Qed.

Lemma oversized_note_length :
  (5 * 1024 * 1024 < Z.of_nat (length (file oversized_note)))%Z.
Proof.
  unfold oversized_note. cbn [file].
  rewrite repeat_length, Z2Nat.id; unfold max_file_size; lia.
Qed.

Lemma oversized_note_ext : upload_ext (filename oversized_note) ∉ allowed_extensions.
Proof. change (filename oversized_note) with "notes.txt". by_decision. Qed.

Lemma C1_witness :
  (upload_ext (filename notes) ∉ allowed_extensions) /\
  status_of (fst (analyze_image 7 notes empty_world)) = 422%Z /\
  snd (analyze_image 7 notes empty_world) = empty_world.
Proof.
  assert (upload_ext (filename notes) ∉ allowed_extensions) as Hext by by_decision.
  split; [exact Hext |].
  destruct (C1_invalid_upload_rejected_unchanged 7 notes empty_world (or_introl Hext))
    as (Hstatus & _ & _ & Hworld).
  split; assumption.
Defined.

Lemma C2_witness :
  describe_scene (Mo := models) "uploads/blank.png" 600%Z 50 world_with_blank =
  (Raise (HTTPException 500
            "Error in scene description: cannot identify image file"),
   log_line "Error in scene description: cannot identify image file"
     world_with_blank).
Proof.
  apply (proj2 (C2_pipeline_exception_becomes_500 (Mo := models) "uploads/blank.png" 600%Z 50
                  world_with_blank _ _)).
  exists "cannot identify image file", world_with_blank.
  split; [vm_compute; reflexivity | split; reflexivity].
Defined.

Lemma C3_witness :
  exists caption,
    response_of "00000000-0000-4000-8000-000000000000" =
      JSONResponse [("caption", caption);
                    ("audio_url", "/audio/" ++ Uuid.str (Uuid.uuid4 0) ++ ".mp3")] /\
    disk (snd first_run) !! ("uploads/" ++ Uuid.str (Uuid.uuid4 0) ++ ".png") =
      Some (file photo).
Proof.
  destruct (C3_audio_url_has_image_stem 0 photo empty_world _ _ first_run_eq)
    as (caption & Hresp & _ & Hdisk & _).
  exists caption. split; [exact Hresp | exact Hdisk].
Defined.

Lemma C4_witness :
  describe_scene (Mo := models)
    "uploads/00000000-0000-4000-8000-000000000000.png" 600%Z 50
    (stored 0 photo empty_world) =
  (Return "a photo of a dog",
   mkWorld (disk (stored 0 photo empty_world)) [Captioner; Detector] []).
Proof.
  apply (proj1 (C4_describe_scene_pipeline (Mo := models)
                  "uploads/00000000-0000-4000-8000-000000000000.png" 600%Z 50
                  (stored 0 photo empty_world))).
  exists (file photo), (file photo), (file photo), (file photo),
    (mkDetections [1; 2; 3]%nat [10; 20; 30]%nat [900; 600; 300]%Z),
    (file photo, ""), (file photo).
  repeat split.
Defined.

(** The boxes kept at the default threshold: the first two of three. *)
Example kept_boxes_example :
  mask_select [1; 2; 3]%nat (map (fun s => Z.geb s 600) [900; 600; 300]%Z) =
  inr [1; 2]%nat.
Proof. reflexivity. Qed.



Lemma C6_witness :
  (upload_ext (filename photo) ∈ allowed_extensions) /\
  status_of (fst (analyze_image 0 photo empty_world)) <> 422%Z.
Proof.
  assert (upload_ext (filename photo) ∈ allowed_extensions) as Hext by by_decision.
  split; [exact Hext |].
  intros H422.
  apply (proj1 (proj1 (C6_size_limit_strict 0 photo empty_world Hext))) in H422.
  vm_compute in H422. discriminate H422.
Defined.

Lemma C7_witness :
  (upload_ext (filename blank) ∈ allowed_extensions) /\
  disk (snd (analyze_image 5 blank empty_world))
    !! ("uploads/" ++ Uuid.str (Uuid.uuid4 5) ++ "." ++ upload_ext (filename blank)) =
  Some (file blank).
Proof.
  assert (upload_ext (filename blank) ∈ allowed_extensions) as Hext by by_decision.
  split; [exact Hext |].
  assert (analyze_image 5 blank empty_world =
          (Raise (HTTPException 500
                    "Error in scene description: cannot identify image file"),
           snd (analyze_image 5 blank empty_world))) as Hrun
    by (vm_compute; reflexivity).
  apply (C7_failed_request_keeps_upload 5 blank empty_world _ _ Hext
           ltac:(vm_compute; discriminate) Hrun).
Defined.

Lemma C8_witness :
  audio_url_of (response_of "00000000-0000-4000-8000-000000000000") <>
  audio_url_of (response_of "00000000-0000-4000-8000-000000000001").
Proof.
  apply (proj2 (proj2 (C8_audio_urls_differ_iff_identifiers_differ 0 1 photo photo
                         empty_world (snd first_run) _ _ _ _
                         first_run_eq second_run_eq))).
  vm_compute. discriminate.
Defined.

(** C8 as stated fails: the same photo sent twice, the second time with
    other random bytes, which differ from the first in the bits that
    [uuid4] overwrites: both requests succeed and both answers carry the
    same audio_url. *)
Lemma C8_counterexample :
  ~ (forall (Mo : Models) r1 r2 upload w resp1 w1 resp2 w2,
       r1 <> r2 ->
       analyze_image r1 upload w = (Return resp1, w1) ->
       analyze_image r2 upload w1 = (Return resp2, w2) ->
       audio_url_of resp1 <> audio_url_of resp2).
Proof.
  intros Hclaim.
  assert (analyze_image (N.shiftl 0xc000 48) photo (snd first_run) =
          (Return (response_of "00000000-0000-4000-8000-000000000000"),
           snd (analyze_image (N.shiftl 0xc000 48) photo (snd first_run))))
    as Hagain by (vm_compute; reflexivity).
  apply (Hclaim models 0%N (N.shiftl 0xc000 48) photo empty_world _ _ _ _
           ltac:(vm_compute; discriminate) first_run_eq Hagain).
  reflexivity.
Qed.

Lemma C9_witness :
  PyStr.occurs "." (filename dotless) = false /\
  upload_ext (filename dotless) = "jpg".
Proof.
  split; [reflexivity |].
  rewrite (proj1 (C9_dotless_name_is_extension 0 dotless empty_world eq_refl)).
  reflexivity.
Defined.

(** C9 as stated fails: the dotless name JPG is none of jpg, jpeg, png, and
    the request is not rejected. *)
Lemma C9_counterexample :
  ~ (forall (Mo : Models) r upload w,
       PyStr.occurs "." (filename upload) = false ->
       filename upload <> "jpg" -> filename upload <> "jpeg" ->
       filename upload <> "png" ->
       status_of (fst (analyze_image r upload w)) = 422%Z).
Proof.
  intros Hclaim.
  specialize (Hclaim models 0%N dotless empty_world eq_refl).
  vm_compute in Hclaim.
  assert (200 = 422)%Z as Habs by (apply Hclaim; discriminate).
  discriminate Habs.
Qed.

Lemma C10_witness :
  (upload_ext (filename oversized_note) ∉ allowed_extensions) /\
  (5 * 1024 * 1024 < Z.of_nat (length (file oversized_note)))%Z /\
  analyze_image 3 oversized_note empty_world =
    (Raise (HTTPException 422
              "Invalid file type. Only JPG, JPEG, and PNG are allowed."),
     empty_world).
Proof.
  split; [exact oversized_note_ext |]. split; [exact oversized_note_length |].
  apply (C10_extension_checked_first 3 oversized_note empty_world
           oversized_note_ext oversized_note_length).
Defined.

End Concrete.

(** * Further properties of the handlers *)

(** ** The state a description ends in *)

Section DescriptionEffects.

Context `{Mo : Models}.

Lemma world_eta (w : World) : mkWorld (disk w) (invoked w) (logged w) = w.
Proof. destruct w; reflexivity. Qed.

(** The [try] block touches nothing but the invocation record, to which it
    adds the detector and then the captioner, as far as it gets; it returns
    only once both have run. *)
Lemma describe_scene_try_world path thr n w :
  exists calls,
    snd (describe_scene_try path thr n w) =
      mkWorld (disk w) (calls ++ invoked w)%list (logged w) /\
    (calls = [] \/ calls = [Detector] \/ calls = [Captioner; Detector]) /\
    (forall locals, fst (describe_scene_try path thr n w) = Return locals ->
       calls = [Captioner; Detector]).
Proof.
  unfold describe_scene_try, bind, read_file.
  destruct (disk w !! path) as [data |];
    [| exists []; rewrite world_eta; cbn; intuition discriminate].
  destruct (Image_open data) as [m | opened]; cbn;
    [exists []; rewrite world_eta; intuition discriminate |].
  destruct (convert_RGB opened) as [m | img]; cbn;
    [exists []; rewrite world_eta; intuition discriminate |].
  destruct (to_input_tensor img) as [m | tensor]; cbn;
    [exists []; rewrite world_eta; intuition discriminate |].
  destruct (object_detector tensor) as [m | d]; cbn;
    [exists [Detector]; intuition discriminate |].
  destruct (mask_select (boxes d) _) as [m | bs]; cbn;
    [exists [Detector]; intuition discriminate |].
  destruct (mask_select (labels d) _) as [m | ls]; cbn;
    [exists [Detector]; intuition discriminate |].
  destruct (caption_processor img "") as [m | inputs]; cbn;
    [exists [Detector]; intuition discriminate |].
  destruct (caption_generate inputs n) as [m | ids]; cbn;
    [exists [Captioner; Detector]; intuition discriminate |].
  destruct (caption_decode ids true) as [m | cap]; cbn;
    exists [Captioner; Detector]; intuition discriminate.
Qed.

(** The world [describe_scene] ends in when it returns. *)
Lemma describe_scene_return_world path thr n w c w' :
  describe_scene path thr n w = (Return c, w') ->
  w' = mkWorld (disk w) (Captioner :: Detector :: invoked w) (logged w).
Proof.
  rewrite describe_scene_unfold.
  destruct (describe_scene_try_world path thr n w) as (calls & Hw & _ & Hret).
  destruct (describe_scene_try path thr n w) as [[locals | msg] w1];
    [| discriminate].
  intros H. injection H as _ <-. simpl in Hw. rewrite Hw.
  now rewrite (Hret locals eq_refl).
Qed.

(** The world it ends in when it raises: one line logged, the detail. *)
Lemma describe_scene_raise_world path thr n w e w' :
  describe_scene path thr n w = (Raise e, w') ->
  exists detail calls,
    e = HTTPException 500 detail /\
    w' = mkWorld (disk w) (calls ++ invoked w)%list (detail :: logged w) /\
    (calls = [] \/ calls = [Detector] \/ calls = [Captioner; Detector]).
Proof.
  rewrite describe_scene_unfold.
  destruct (describe_scene_try_world path thr n w) as (calls & Hw & Hcalls & _).
  destruct (describe_scene_try path thr n w) as [[locals | msg] w1];
    [discriminate |].
  intros H. injection H as <- <-. simpl in Hw. rewrite Hw.
  exists ("Error in scene description: " ++ msg), calls. repeat split. exact Hcalls.
Qed.

(** X12: [describe_scene] writes no file, whether it returns or raises; the
    only models it invokes are the detector and, after it, the captioner;
    it logs at most one line, and none when it returns. *)
Theorem X12_describe_scene_effects path thr n w :
  disk (snd (describe_scene path thr n w)) = disk w /\
  (exists calls,
     invoked (snd (describe_scene path thr n w)) = (calls ++ invoked w)%list /\
     (calls = [] \/ calls = [Detector] \/ calls = [Captioner; Detector])) /\
  (forall c w', describe_scene path thr n w = (Return c, w') ->
     invoked w' = Captioner :: Detector :: invoked w /\ logged w' = logged w) /\
  (forall e w', describe_scene path thr n w = (Raise e, w') ->
     exists detail, e = HTTPException 500 detail /\
                    logged w' = detail :: logged w).
Proof.
  split; [apply describe_scene_keeps_disk |]. split; [| split].
  - destruct (describe_scene path thr n w) as [[c | e] w'] eqn:Hrun.
    + apply describe_scene_return_world in Hrun as ->.
      exists [Captioner; Detector]. split; [reflexivity | tauto].
    + apply describe_scene_raise_world in Hrun as (detail & calls & _ & -> & Hc).
      exists calls. split; [reflexivity | exact Hc].
  - intros c w' Hrun. apply describe_scene_return_world in Hrun as ->.
    split; reflexivity.
  - intros e w' Hrun.
    apply describe_scene_raise_world in Hrun as (detail & calls & -> & -> & _).
    exists detail. split; reflexivity.
Qed.

End DescriptionEffects.

(** ** The state a request ends in *)

Section RequestEffects.

Context `{Mo : Models}.

Lemma get_audio_present name w :
  PyStr.startswith "/" name = false ->
  is_Some (disk w !! ("uploads/" ++ name)) ->
  get_audio name w = (Return (FileResponse ("uploads/" ++ name) "audio/mpeg"), w).
Proof.
  intros Hname Hfile. unfold get_audio, os_path_exists.
  rewrite (join_upload_dir _ Hname). now rewrite bool_decide_true.
Qed.

Lemma get_audio_absent name w :
  PyStr.startswith "/" name = false ->
  is_directory ("uploads/" ++ name) = false ->
  disk w !! ("uploads/" ++ name) = None ->
  get_audio name w = (Raise (HTTPException 404 "Audio file not found"), w).
Proof.
  intros Hname Hdir Hfile. unfold get_audio, os_path_exists.
  rewrite (join_upload_dir _ Hname), Hfile, Hdir.
  rewrite bool_decide_false by (intros [? ?]; discriminate). reflexivity.
Qed.

(** A generated name begins with a hex digit: it names no directory. *)
Lemma generated_name_not_directory (n : N) (t : string) :
  is_directory ("uploads/" ++ Uuid.str n ++ t) = false.
Proof.
  unfold Uuid.str.
  change (Uuid.hex_fixed 32 n) with
    (String (Uuid.hex_digit ((n / 16 ^ N.of_nat 31) mod 16)) (Uuid.hex_fixed 31 n)).
  pose proof (hex_digit_ok ((n / 16 ^ N.of_nat 31) mod 16)) as Hd.
  generalize dependent (Uuid.hex_digit ((n / 16 ^ N.of_nat 31) mod 16)).
  generalize (Uuid.hex_fixed 31 n). intros rest d Hd.
  unfold Uuid.hyphenate, is_directory. simpl.
  destruct (Ascii.eqb_spec d ".") as [-> |]; [discriminate Hd | reflexivity].
Qed.

(** The whole state after a successful request. *)
Lemma analyze_success_world r upload w resp w' :
  analyze_image r upload w = (Return resp, w') ->
  exists caption tts,
    gTTS caption = inr tts /\
    snd (gTTS_save tts) = None /\
    resp = JSONResponse [("caption", caption);
                         ("audio_url", "/audio/" ++ stem_of r ++ ".mp3")] /\
    w' = mkWorld (<[audio_path r := fst (gTTS_save tts)]>
                    (<[upload_path r (filename upload) := file upload]> (disk w)))
                 (TextToSpeech :: Captioner :: Detector :: invoked w) (logged w).
Proof.
  intros Hrun. destruct (analyze_return_valid _ _ _ _ _ Hrun) as [Hext Hsize].
  rewrite analyze_accepted in Hrun by assumption.
  unfold describe_scene_default in Hrun.
  destruct (describe_scene _ _ _ _) as [[caption | e] w2] eqn:Hdesc;
    [| discriminate Hrun].
  apply describe_scene_return_world in Hdesc as ->.
  unfold synthesis in Hrun. exists caption.
  destruct (gTTS caption) as [msg | tts]; [discriminate Hrun |].
  exists tts. destruct (snd (gTTS_save tts)); [discriminate Hrun |].
  injection Hrun as <- <-. repeat split.
Qed.

(** The whole state after a request that passed validation and failed. *)
Lemma analyze_failure_world r upload w e w' :
  upload_ext (filename upload) ∈ allowed_extensions ->
  (Z.of_nat (length (file upload)) <= max_file_size)%Z ->
  analyze_image r upload w = (Raise e, w') ->
  exists detail calls files,
    e = HTTPException 500 detail /\
    w' = mkWorld files (calls ++ invoked w)%list (detail :: logged w) /\
    ((exists msg, detail = "Error in scene description: " ++ msg) /\
     files = <[upload_path r (filename upload) := file upload]> (disk w) /\
     (calls = [] \/ calls = [Detector] \/ calls = [Captioner; Detector])
     \/
     (exists msg, detail = "Failed to process image: " ++ msg) /\
     calls = [TextToSpeech; Captioner; Detector] /\
     (files = <[upload_path r (filename upload) := file upload]> (disk w) \/
      exists partial,
        files = <[audio_path r := partial]>
                  (<[upload_path r (filename upload) := file upload]> (disk w)))).
Proof.
  intros Hext Hsize Hrun. rewrite analyze_accepted in Hrun by assumption.
  unfold describe_scene_default in Hrun.
  destruct (describe_scene _ _ _ _) as [[caption | e2] w2] eqn:Hdesc.
  - apply describe_scene_return_world in Hdesc as ->.
    unfold synthesis in Hrun. destruct (gTTS caption) as [msg | tts].
    + injection Hrun as <- <-.
      exists ("Failed to process image: " ++ msg),
        [TextToSpeech; Captioner; Detector],
        (<[upload_path r (filename upload) := file upload]> (disk w)).
      split; [reflexivity |]. split; [reflexivity |]. right.
      split; [eauto |]. split; [reflexivity |]. now left.
    + destruct (snd (gTTS_save tts)) as [msg |]; [| discriminate Hrun].
      injection Hrun as <- <-.
      exists ("Failed to process image: " ++ msg),
        [TextToSpeech; Captioner; Detector],
        (<[audio_path r := fst (gTTS_save tts)]>
           (<[upload_path r (filename upload) := file upload]> (disk w))).
      split; [reflexivity |]. split; [reflexivity |]. right.
      split; [eauto |]. split; [reflexivity |]. right. eauto.
  - injection Hrun as <- <-.
    pose proof Hdesc as Hdesc'.
    apply describe_scene_raise_world in Hdesc as (detail & calls & -> & -> & Hc).
    rewrite describe_scene_unfold in Hdesc'.
    destruct (describe_scene_try _ _ _ _) as [[locals | msg] w1];
      [discriminate Hdesc' |].
    injection Hdesc' as Hd _.
    exists detail, calls,
      (<[upload_path r (filename upload) := file upload]> (disk w)).
    split; [reflexivity |]. split; [reflexivity |]. left.
    split; [exists msg; symmetry; exact Hd |]. split; [reflexivity | exact Hc].
Qed.

(** X1: the audio_url of a successful answer can be dereferenced at once:
    its last segment, given to [get_audio] in the state the request ended
    in, yields the file written by the speech engine for the returned
    caption, as audio/mpeg. *)
Theorem X1_audio_url_is_retrievable r upload w resp w' :
  analyze_image r upload w = (Return resp, w') ->
  exists name caption tts,
    audio_url_of resp = Some ("/audio/" ++ name) /\
    resp = JSONResponse [("caption", caption); ("audio_url", "/audio/" ++ name)] /\
    gTTS caption = inr tts /\
    disk w' !! ("uploads/" ++ name) = Some (fst (gTTS_save tts)) /\
    get_audio name w' =
      (Return (FileResponse ("uploads/" ++ name) "audio/mpeg"), w').
Proof.
  intros Hrun.
  destruct (analyze_success_world _ _ _ _ _ Hrun)
    as (caption & tts & Htts & _ & -> & ->).
  exists (stem_of r ++ ".mp3"), caption, tts.
  assert (disk (mkWorld
                  (<[audio_path r := fst (gTTS_save tts)]>
                     (<[upload_path r (filename upload) := file upload]> (disk w)))
                  (TextToSpeech :: Captioner :: Detector :: invoked w) (logged w))
            !! ("uploads/" ++ stem_of r ++ ".mp3") = Some (fst (gTTS_save tts)))
    as Hfile by apply lookup_insert_eq.
  repeat split; try assumption; try reflexivity.
  apply get_audio_present; [apply str_startswith | rewrite Hfile; eauto].
Qed.

(** X2: the retrieval endpoint does not look at the kind of file: after a
    successful request the stored image itself is served under its
    generated name, labelled audio/mpeg, with the uploaded bytes. *)
Theorem X2_stored_image_served_as_audio r upload w resp w' :
  analyze_image r upload w = (Return resp, w') ->
  let name := Uuid.str (Uuid.uuid4 r) ++ "." ++ upload_ext (filename upload) in
  disk w' !! ("uploads/" ++ name) = Some (file upload) /\
  get_audio name w' = (Return (FileResponse ("uploads/" ++ name) "audio/mpeg"), w').
Proof.
  intros Hrun name.
  destruct (analyze_return_valid _ _ _ _ _ Hrun) as [Hext _].
  destruct (analyze_success_world _ _ _ _ _ Hrun) as (caption & tts & _ & _ & _ & ->).
  assert (disk (mkWorld
                  (<[audio_path r := fst (gTTS_save tts)]>
                     (<[upload_path r (filename upload) := file upload]> (disk w)))
                  (TextToSpeech :: Captioner :: Detector :: invoked w) (logged w))
            !! ("uploads/" ++ name) = Some (file upload)) as Hfile.
  { cbn [disk]. rewrite lookup_insert_ne.
    - apply lookup_insert_eq.
    - intros Heq. now apply (upload_path_ne_audio r (filename upload)). }
  split; [exact Hfile |].
  apply get_audio_present; [apply str_startswith | rewrite Hfile; eauto].
Qed.

(** X4: a successful request has invoked each model once, the detector, the
    captioner and the speech engine in this order, and has logged nothing. *)
Theorem X4_success_invokes_models_in_order r upload w resp w' :
  analyze_image r upload w = (Return resp, w') ->
  invoked w' = TextToSpeech :: Captioner :: Detector :: invoked w /\
  logged w' = logged w.
Proof.
  intros Hrun.
  destruct (analyze_success_world _ _ _ _ _ Hrun) as (caption & tts & _ & _ & _ & ->).
  split; reflexivity.
Qed.

End RequestEffects.

(** ** What a request leaves alone *)

Section RequestFrame.

Context `{Mo : Models}.

(** The files after a request: as before, or with the upload added, or with
    the upload and some audio added. *)
Lemma analyze_disk_cases r upload w :
  disk (snd (analyze_image r upload w)) = disk w \/
  disk (snd (analyze_image r upload w)) =
    <[upload_path r (filename upload) := file upload]> (disk w) \/
  exists audio,
    disk (snd (analyze_image r upload w)) =
      <[audio_path r := audio]>
        (<[upload_path r (filename upload) := file upload]> (disk w)).
Proof.
  destruct (decide (upload_ext (filename upload) ∈ allowed_extensions)) as [Hin | Hout];
    [| rewrite analyze_bad_ext by assumption; now left].
  destruct (Z.lt_ge_cases max_file_size (Z.of_nat (length (file upload))))
    as [Hbig | Hsmall]; [rewrite analyze_too_large by assumption; now left |].
  destruct (analyze_image r upload w) as [[resp | e] w'] eqn:Hrun.
  - destruct (analyze_success_world _ _ _ _ _ Hrun) as (c & tts & _ & _ & _ & ->).
    right. right. eauto.
  - destruct (analyze_failure _ _ _ _ _ Hin Hsmall Hrun) as [_ [Hd | Hd]];
      right; [now left | now right].
Qed.

Lemma analyze_frame r upload w p :
  p <> upload_path r (filename upload) -> p <> audio_path r ->
  disk (snd (analyze_image r upload w)) !! p = disk w !! p.
Proof.
  intros Hup Hau.
  destruct (analyze_disk_cases r upload w) as [-> | [-> | [audio ->]]].
  - reflexivity.
  - now rewrite lookup_insert_ne.
  - now rewrite !lookup_insert_ne.
Qed.

Lemma analyze_keeps_files r upload w p :
  is_Some (disk w !! p) -> is_Some (disk (snd (analyze_image r upload w)) !! p).
Proof.
  intros Hp.
  destruct (analyze_disk_cases r upload w) as [-> | [-> | [audio ->]]].
  - exact Hp.
  - rewrite lookup_insert. case_decide; eauto.
  - rewrite !lookup_insert. repeat case_decide; eauto.
Qed.

(** X3: whatever the outcome of a request, every file other than its own
    upload and its own audio has the content it had, and no file that
    existed is gone. *)
Theorem X3_request_touches_only_its_files r upload w :
  (forall p, p <> upload_path r (filename upload) -> p <> audio_path r ->
     disk (snd (analyze_image r upload w)) !! p = disk w !! p) /\
  (forall p, is_Some (disk w !! p) ->
     is_Some (disk (snd (analyze_image r upload w)) !! p)).
Proof.
  split; [intros p; apply analyze_frame | intros p; apply analyze_keeps_files].
Qed.

(** A dot-free prefix before a dot is determined by the whole string. *)
Lemma dotfree_prefix_inj (s1 s2 t1 t2 : string) :
  PyStr.occurs "." s1 = false -> PyStr.occurs "." s2 = false ->
  s1 ++ String "." t1 = s2 ++ String "." t2 -> s1 = s2.
Proof.
  revert s2. induction s1 as [|c s1 IH]; intros [|d s2] H1 H2 Heq;
    simpl in *.
  - reflexivity.
  - injection Heq as <- _. discriminate H2.
  - injection Heq as -> _. discriminate H1.
  - apply orb_false_iff in H1 as [_ H1]. apply orb_false_iff in H2 as [_ H2].
    injection Heq as -> Heq. f_equal. now apply IH.
Qed.

(** Requests with different identifiers use different paths. *)
Lemma stems_differ r1 r2 (t1 t2 : string) :
  Uuid.uuid4 r1 <> Uuid.uuid4 r2 ->
  "uploads/" ++ stem_of r1 ++ String "." t1 <> "uploads/" ++ stem_of r2 ++ String "." t2.
Proof.
  intros Hne Heq. apply Hne. apply append_inv_head in Heq.
  apply dotfree_prefix_inj in Heq; try apply str_no_dot.
  apply str_inj; try apply uuid4_bound. exact Heq.
Qed.

(** X14: a later request under another identifier, whatever its upload and
    its outcome, leaves the image and the audio of an earlier successful
    request as they were, and the audio still retrievable. *)
Theorem X14_later_request_keeps_earlier_files r1 r2 upload1 upload2 w resp1 w1 :
  analyze_image r1 upload1 w = (Return resp1, w1) ->
  Uuid.uuid4 r1 <> Uuid.uuid4 r2 ->
  disk (snd (analyze_image r2 upload2 w1)) !! upload_path r1 (filename upload1) =
    Some (file upload1) /\
  disk (snd (analyze_image r2 upload2 w1)) !! audio_path r1 =
    disk w1 !! audio_path r1 /\
  get_audio (stem_of r1 ++ ".mp3") (snd (analyze_image r2 upload2 w1)) =
    (Return (FileResponse (audio_path r1) "audio/mpeg"),
     snd (analyze_image r2 upload2 w1)).
Proof.
  intros Hrun Hne.
  destruct (analyze_return_valid _ _ _ _ _ Hrun) as [Hext _].
  destruct (analyze_success_world _ _ _ _ _ Hrun) as (c & tts & _ & _ & _ & Hw1).
  assert (forall t1 t2, "uploads/" ++ stem_of r1 ++ String "." t1 <>
                        "uploads/" ++ stem_of r2 ++ String "." t2) as Hpaths
    by (intros; now apply stems_differ).
  assert (disk (snd (analyze_image r2 upload2 w1)) !! audio_path r1 =
          disk w1 !! audio_path r1) as Haudio
    by (apply analyze_frame; apply Hpaths).
  split; [| split; [exact Haudio |]].
  - rewrite analyze_frame by apply Hpaths. rewrite Hw1. cbn [disk].
    rewrite lookup_insert_ne.
    + apply lookup_insert_eq.
    + intros Heq. now apply (upload_path_ne_audio r1 (filename upload1)).
  - apply get_audio_present; [apply str_startswith |].
    fold (audio_path r1). rewrite Haudio, Hw1. cbn [disk].
    rewrite lookup_insert_eq. eauto.
Qed.

(** X8: a request ends in one of three ways: a JSON object with a caption
    and an audio_url, nothing being logged; a 422 with the state untouched;
    or a 500 whose detail is the one line added to the log.  No exception
    other than an [HTTPException] leaves the handler. *)
Theorem X8_outcomes_and_logging r upload w :
  match analyze_image r upload w with
  | (Return resp, w') =>
      (exists caption url,
         resp = JSONResponse [("caption", caption); ("audio_url", url)]) /\
      logged w' = logged w
  | (Raise (HTTPException code detail), w') =>
      (code = 422%Z /\ w' = w) \/
      (code = 500%Z /\ logged w' = detail :: logged w)
  | (Raise (Exception _), _) => False
  end.
Proof.
  destruct (decide (upload_ext (filename upload) ∈ allowed_extensions)) as [Hin | Hout];
    [| rewrite analyze_bad_ext by assumption; now left].
  destruct (Z.lt_ge_cases max_file_size (Z.of_nat (length (file upload))))
    as [Hbig | Hsmall]; [rewrite analyze_too_large by assumption; now left |].
  destruct (analyze_image r upload w) as [[resp | e] w'] eqn:Hrun.
  - destruct (analyze_success_world _ _ _ _ _ Hrun) as (c & tts & _ & _ & -> & ->).
    split; [eauto | reflexivity].
  - destruct (analyze_failure_world _ _ _ _ _ Hin Hsmall Hrun)
      as (detail & calls & files & -> & -> & _).
    right. split; reflexivity.
Qed.

End RequestFrame.

(** ** Failures after validation, by stage *)

Section Failures.

Context `{Mo : Models}.

(** A request answered with a 500 had passed validation. *)
Lemma analyze_500_valid r upload w detail w' :
  analyze_image r upload w = (Raise (HTTPException 500 detail), w') ->
  upload_ext (filename upload) ∈ allowed_extensions /\
  (Z.of_nat (length (file upload)) <= max_file_size)%Z.
Proof.
  intros Hrun.
  destruct (decide (upload_ext (filename upload) ∈ allowed_extensions)) as [Hin | Hout].
  - split; [exact Hin |].
    destruct (Z.lt_ge_cases max_file_size (Z.of_nat (length (file upload))))
      as [Hbig | Hsmall]; [| exact Hsmall].
    rewrite analyze_too_large in Hrun by assumption. discriminate Hrun.
  - rewrite analyze_bad_ext in Hrun by assumption. discriminate Hrun.
Qed.

(** X5: a 500 whose detail begins with the prefix of [describe_scene] comes
    from the description: the upload is stored, the speech engine has not
    been invoked and no audio has been written, so the audio of this
    request, unless a file of that name was there before, is a 404. *)
Theorem X5_description_failure_writes_no_audio r upload w msg w' :
  analyze_image r upload w =
    (Raise (HTTPException 500 ("Error in scene description: " ++ msg)), w') ->
  disk w' = <[upload_path r (filename upload) := file upload]> (disk w) /\
  (exists calls,
     invoked w' = (calls ++ invoked w)%list /\
     (calls = [] \/ calls = [Detector] \/ calls = [Captioner; Detector])) /\
  (disk w !! audio_path r = None ->
   get_audio (stem_of r ++ ".mp3") w' =
     (Raise (HTTPException 404 "Audio file not found"), w')).
Proof.
  intros Hrun. destruct (analyze_500_valid _ _ _ _ _ Hrun) as [Hext Hsize].
  destruct (analyze_failure_world _ _ _ _ _ Hext Hsize Hrun)
    as (detail & calls & files & He & -> & Hcases).
  injection He as He.
  destruct Hcases as [(_ & -> & Hcalls) | ([m Hm] & _)].
  - split; [reflexivity |]. split; [exists calls; split; [reflexivity | exact Hcalls] |].
    intros Hnone.
    apply get_audio_absent;
      [apply str_startswith | apply generated_name_not_directory |].
    cbn [disk]. fold (audio_path r). rewrite lookup_insert_ne; [exact Hnone |].
    now apply upload_path_ne_audio.
  - rewrite Hm in He. simpl in He. discriminate He.
Qed.

(** X7: when the speech engine fails while saving, the bytes it had written
    stay on disk under the audio name, and the retrieval endpoint serves
    that partial file. *)
Theorem X7_failed_save_leaves_partial_audio r upload w caption w2 tts written msg :
  upload_ext (filename upload) ∈ allowed_extensions ->
  (Z.of_nat (length (file upload)) <= 5 * 1024 * 1024)%Z ->
  describe_scene_default (upload_path r (filename upload)) (stored r upload w) =
    (Return caption, w2) ->
  gTTS caption = inr tts ->
  gTTS_save tts = (written, Some msg) ->
  exists w',
    analyze_image r upload w =
      (Raise (HTTPException 500 ("Failed to process image: " ++ msg)), w') /\
    disk w' !! audio_path r = Some written /\
    get_audio (stem_of r ++ ".mp3") w' =
      (Return (FileResponse (audio_path r) "audio/mpeg"), w').
Proof.
  intros Hext Hsize Hdesc Htts Hsave.
  rewrite analyze_accepted by assumption. rewrite Hdesc.
  unfold synthesis. rewrite Htts, Hsave. cbn [fst snd].
  eexists. split; [reflexivity |].
  assert (forall w0 line,
            disk (log_line line
                    (mkWorld (<[audio_path r := written]> (disk w0))
                             (invoked w0) (logged w0))) !! audio_path r =
            Some written) as Hfile by (intros; apply lookup_insert_eq).
  split; [apply Hfile |].
  apply get_audio_present; [apply str_startswith |].
  fold (audio_path r). rewrite Hfile. eauto.
Qed.

(** X16: when the speech engine refuses the caption, no audio file is
    created: the files are those before the request plus the upload. *)
Theorem X16_refused_caption_writes_no_audio r upload w caption w2 msg :
  upload_ext (filename upload) ∈ allowed_extensions ->
  (Z.of_nat (length (file upload)) <= 5 * 1024 * 1024)%Z ->
  describe_scene_default (upload_path r (filename upload)) (stored r upload w) =
    (Return caption, w2) ->
  gTTS caption = inl msg ->
  exists w',
    analyze_image r upload w =
      (Raise (HTTPException 500 ("Failed to process image: " ++ msg)), w') /\
    disk w' = <[upload_path r (filename upload) := file upload]> (disk w) /\
    invoked w' = TextToSpeech :: Captioner :: Detector :: invoked w.
Proof.
  intros Hext Hsize Hdesc Htts.
  rewrite analyze_accepted by assumption. rewrite Hdesc.
  unfold describe_scene_default in Hdesc.
  apply describe_scene_return_world in Hdesc as ->.
  unfold synthesis. rewrite Htts.
  eexists. split; [reflexivity |]. split; reflexivity.
Qed.

(** X15: an upload that passes validation and cannot be decoded as an image
    is answered with a 500 carrying the decoder's message; no model has
    been invoked, and the undecodable file stays in the upload directory. *)
Theorem X15_undecodable_upload r upload w msg :
  upload_ext (filename upload) ∈ allowed_extensions ->
  (Z.of_nat (length (file upload)) <= 5 * 1024 * 1024)%Z ->
  Image_open (file upload) = inl msg ->
  analyze_image r upload w =
    (Raise (HTTPException 500 ("Error in scene description: " ++ msg)),
     mkWorld (<[upload_path r (filename upload) := file upload]> (disk w))
             (invoked w)
             (("Error in scene description: " ++ msg) :: logged w)).
Proof.
  intros Hext Hsize Hopen.
  rewrite analyze_accepted by assumption. unfold describe_scene_default.
  rewrite (decode_failure_is_500 _ _ _ _ (file upload) msg);
    [reflexivity | apply lookup_insert_eq | exact Hopen].
Qed.

End Failures.

(** ** The extension of a file name *)

Section Extension.

Context `{Mo : Models}.

Lemma lower_ascii_dot (c : ascii) :
  Ascii.eqb (PyStr.lower_ascii c) "." = Ascii.eqb c ".".
Proof. destruct c as [[] [] [] [] [] [] [] []]; reflexivity. Qed.

Lemma lower_ascii_idem (c : ascii) :
  PyStr.lower_ascii (PyStr.lower_ascii c) = PyStr.lower_ascii c.
Proof. destruct c as [[] [] [] [] [] [] [] []]; reflexivity. Qed.

Lemma lower_idem (s : string) : PyStr.lower (PyStr.lower s) = PyStr.lower s.
Proof.
  induction s as [|c s IH]; simpl; [reflexivity |].
  now rewrite lower_ascii_idem, IH.
Qed.

(** Lowercasing commutes with splitting at dots. *)
Lemma split_lower (s : string) :
  PyStr.split "." (PyStr.lower s) = map PyStr.lower (PyStr.split "." s).
Proof.
  induction s as [|c s IH]; simpl; [reflexivity |].
  rewrite lower_ascii_dot, IH.
  destruct (Ascii.eqb c "."); [reflexivity |].
  pose proof (split_not_nil "." s) as Hne.
  destruct (PyStr.split "." s); [contradiction | reflexivity].
Qed.

Lemma last_item_map_lower (l : list string) :
  l <> [] -> PyStr.last_item (map PyStr.lower l) = PyStr.lower (PyStr.last_item l).
Proof.
  unfold PyStr.last_item. induction l as [|x l IH]; [contradiction |].
  intros _. destruct l as [|y l]; [reflexivity |].
  change (List.last (PyStr.lower x :: map PyStr.lower (y :: l)) "")
    with (List.last (map PyStr.lower (y :: l)) "").
  change (List.last (x :: y :: l) "") with (List.last (y :: l) "").
  apply IH. discriminate.
Qed.

(** The extension depends on the name up to letter case only. *)
Lemma upload_ext_lower (name : string) :
  upload_ext (PyStr.lower name) = upload_ext name.
Proof.
  unfold upload_ext.
  rewrite split_lower, last_item_map_lower by apply split_not_nil.
  apply lower_idem.
Qed.

(** The request reads the file name through its extension only. *)
Lemma analyze_ext_only r name1 name2 data w :
  upload_ext name1 = upload_ext name2 ->
  analyze_image r (mkUploadFile name1 data) w =
  analyze_image r (mkUploadFile name2 data) w.
Proof.
  intros Hext. unfold analyze_image, analyze_image_try. cbn [filename file].
  fold (upload_ext name1). fold (upload_ext name2). now rewrite Hext.
Qed.

(** The type check rejects exactly the extensions outside the allow-list. *)
Lemma type_check_iff r upload w :
  analyze_image r upload w = (Raise (HTTPException 422 invalid_type_detail), w) <->
  upload_ext (filename upload) ∉ allowed_extensions.
Proof.
  split; [| apply analyze_bad_ext].
  intros Hrej Hin.
  destruct (Z.lt_ge_cases max_file_size (Z.of_nat (length (file upload))))
    as [Hbig | Hsmall].
  - rewrite analyze_too_large in Hrej by assumption. discriminate Hrej.
  - destruct (analyze_accepted_status r upload w Hin Hsmall) as [H | H];
      rewrite Hrej in H; discriminate H.
Qed.

(** The part after the last dot, lowercased. *)
Lemma upload_ext_suffix (a b : string) :
  PyStr.occurs "." b = false -> upload_ext (a ++ "." ++ b) = PyStr.lower b.
Proof.
  intros Hb. unfold upload_ext.
  change (a ++ "." ++ b) with (a ++ String "." b).
  now rewrite last_split_app.
Qed.

(** X9: file names that differ in letter case only are treated alike: with
    the same bytes, identifier and state, the two requests have the same
    answer and end in the same state. *)
Theorem X9_letter_case_of_name_is_ignored r name1 name2 data w :
  PyStr.lower name1 = PyStr.lower name2 ->
  analyze_image r (mkUploadFile name1 data) w =
  analyze_image r (mkUploadFile name2 data) w.
Proof.
  intros Hlow. apply analyze_ext_only.
  now rewrite <- (upload_ext_lower name1), <- (upload_ext_lower name2), Hlow.
Qed.

(** X10: of a file name with dots only the part after the last dot counts:
    it is the extension once lowercased, and the request is rejected as an
    invalid file type exactly when that part is none of jpg, jpeg, png. *)
Theorem X10_last_dot_decides r upload w a b :
  filename upload = a ++ "." ++ b ->
  PyStr.occurs "." b = false ->
  upload_ext (filename upload) = PyStr.lower b /\
  (analyze_image r upload w = (Raise (HTTPException 422 invalid_type_detail), w) <->
   PyStr.lower b ∉ allowed_extensions).
Proof.
  intros Hname Hb.
  assert (upload_ext (filename upload) = PyStr.lower b) as Hext
    by (rewrite Hname; now apply upload_ext_suffix).
  split; [exact Hext |]. rewrite type_check_iff. now rewrite Hext.
Qed.

(** X11: an empty file name, and a file name that ends in a dot, have the
    empty extension and are rejected with 422, whatever the bytes. *)
Theorem X11_empty_extension_rejected r upload w :
  filename upload = "" \/ (exists a, filename upload = a ++ ".") ->
  upload_ext (filename upload) = "" /\
  analyze_image r upload w = (Raise (HTTPException 422 invalid_type_detail), w).
Proof.
  intros Hname.
  assert (upload_ext (filename upload) = "") as Hext.
  { destruct Hname as [-> | [a ->]]; [reflexivity |].
    now apply (upload_ext_suffix a ""). }
  split; [exact Hext |]. apply analyze_bad_ext. rewrite Hext.
  rewrite elem_of_allowed. intros [H | [H | H]]; discriminate H.
Qed.

End Extension.

(** ** The kept detections *)

Section KeptDetections.

Context `{Mo : Models}.

Lemma mask_select_masked {A} (xs : list A) (keep : list bool) (l : list A) :
  mask_select xs keep = inr l -> length xs = length keep /\ l = masked xs keep.
Proof.
  unfold mask_select, masked.
  destruct (Nat.eqb_spec (length xs) (length keep)) as [Hlen | Hlen];
    [| discriminate].
  intros H. injection H as <-. split; [exact Hlen | reflexivity].
Qed.

(** Masking two parallel arrays keeps them parallel. *)
Lemma masked_zip {A B} (xs : list A) (ys : list B) (keep : list bool) :
  length xs = length keep -> length ys = length keep ->
  masked (zip xs ys) keep = zip (masked xs keep) (masked ys keep).
Proof.
  revert xs ys. unfold masked.
  induction keep as [|b keep IH]; intros [|x xs] [|y ys] Hx Hy;
    try discriminate; [reflexivity |].
  injection Hx as Hx. injection Hy as Hy. specialize (IH xs ys Hx Hy).
  cbn [zip zip_with]. rewrite !filter_cons. cbn [snd].
  destruct b.
  - rewrite !decide_True by reflexivity. cbn [map fst zip_with].
    f_equal. exact IH.
  - rewrite !decide_False by discriminate. exact IH.
Qed.

Lemma masked_length {A} (xs : list A) (keep : list bool) :
  length xs = length keep ->
  length (masked xs keep) = length (filter (fun b => b = true) keep).
Proof.
  revert xs. unfold masked.
  induction keep as [|b keep IH]; intros [|x xs] Hx; try discriminate;
    [reflexivity |].
  injection Hx as Hx. specialize (IH xs Hx).
  cbn [zip zip_with]. rewrite !filter_cons. cbn [snd].
  destruct b.
  - rewrite !decide_True by reflexivity. cbn [map length]. now rewrite IH.
  - rewrite !decide_False by discriminate. exact IH.
Qed.

(** X13: the boxes and the labels kept by [describe_scene] stay aligned:
    there are as many of the one as of the other, no more than there are
    detections, and a box and a label stand at the same place exactly when
    they belong to one detection whose score passes the threshold. *)
Theorem X13_kept_boxes_and_labels_aligned path thr n w locals w' :
  describe_scene_try path thr n w = (Return locals, w') ->
  exists tensor d,
    to_input_tensor (image locals) = inr tensor /\
    object_detector tensor = inr d /\
    length (bboxes locals) = length (kept_labels locals) /\
    length (bboxes locals) <= length (scores d) /\
    (forall b l,
       (b, l) ∈ zip (bboxes locals) (kept_labels locals) <->
       exists i s, boxes d !! i = Some b /\ labels d !! i = Some l /\
                   scores d !! i = Some s /\ score_ge s thr = true).
Proof.
  intros Htry.
  destruct (describe_scene_try_inv _ _ _ _ _ _ Htry)
    as (data & opened & tensor & d & inputs & _ & _ & _ & Htensor & Hdet &
        Hbs & Hls & _).
  exists tensor, d. split; [exact Htensor |]. split; [exact Hdet |].
  set (keep := map (fun s => score_ge s thr) (scores d)) in *.
  apply mask_select_masked in Hbs as [Hb Hbs].
  apply mask_select_masked in Hls as [Hl Hls].
  assert (length keep = length (scores d)) as Hk by apply length_map.
  split; [| split].
  - rewrite Hbs, Hls, !masked_length by assumption. reflexivity.
  - rewrite Hbs, masked_length by assumption. rewrite <- Hk.
    apply length_filter.
  - intros b l.
    assert (mask_select (zip (boxes d) (labels d)) keep =
            inr (zip (bboxes locals) (kept_labels locals))) as Hzip.
    { unfold mask_select. rewrite length_zip_with, Hb, Hl, Nat.min_id.
      rewrite Nat.eqb_refl. fold (masked (zip (boxes d) (labels d)) keep).
      now rewrite masked_zip, <- Hbs, <- Hls. }
    apply mask_select_threshold in Hzip as [_ Hzip]. rewrite Hzip.
    split.
    + intros (i & s & Hi & Hs & Hge).
      apply lookup_zip_with_Some in Hi as (b' & l' & Heq & Hbi & Hli).
      injection Heq as <- <-. exists i, s. auto.
    + intros (i & s & Hbi & Hli & Hs & Hge). exists i, s.
      split; [| auto]. apply lookup_zip_with_Some. exists b, l. auto.
Qed.

End KeptDetections.

(** ** The further properties on concrete requests *)

Section ConcreteFurther.

Import Demo Samples.

Ltac decide_now := apply (bool_decide_unpack _); vm_compute; exact I.

Lemma photo_ext_allowed : upload_ext (filename photo) ∈ allowed_extensions.
Proof. decide_now. Qed.

Lemma blank_ext_allowed : upload_ext (filename blank) ∈ allowed_extensions.
Proof. decide_now. Qed.

Lemma silent_ext_allowed : upload_ext (filename silent) ∈ allowed_extensions.
Proof. decide_now. Qed.

Lemma X1_witness :
  exists name,
    audio_url_of (response_of "00000000-0000-4000-8000-000000000000") =
      Some ("/audio/" ++ name) /\
    get_audio name (snd first_run) =
      (Return (FileResponse ("uploads/" ++ name) "audio/mpeg"), snd first_run).
Proof.
  destruct (X1_audio_url_is_retrievable (Mo := models) 0 photo empty_world _ _
              first_run_eq) as (name & caption & tts & Hurl & _ & _ & _ & Hget).
  exists name. split; [exact Hurl | exact Hget].
Defined.

Lemma X2_witness :
  disk (snd first_run)
    !! ("uploads/" ++ Uuid.str (Uuid.uuid4 0) ++ "." ++ upload_ext (filename photo)) =
  Some (file photo).
Proof.
  exact (proj1 (X2_stored_image_served_as_audio (Mo := models) 0 photo empty_world
                  _ _ first_run_eq)).
Defined.

Lemma X4_witness : invoked (snd first_run) = [TextToSpeech; Captioner; Detector].
Proof.
  exact (proj1 (X4_success_invokes_models_in_order (Mo := models) 0 photo
                  empty_world _ _ first_run_eq)).
Defined.

Lemma X5_witness :
  get_audio (stem_of 5 ++ ".mp3") (snd (analyze_image 5 blank empty_world)) =
  (Raise (HTTPException 404 "Audio file not found"),
   snd (analyze_image 5 blank empty_world)).
Proof.
  assert (analyze_image 5 blank empty_world =
          (Raise (HTTPException 500
                    ("Error in scene description: " ++ "cannot identify image file")),
           snd (analyze_image 5 blank empty_world))) as Hrun
    by (vm_compute; reflexivity).
  apply (proj2 (proj2 (X5_description_failure_writes_no_audio (Mo := models)
                         5 blank empty_world _ _ Hrun))).
  vm_compute. reflexivity.
Defined.

Lemma X7_witness :
  exists w',
    analyze_image (Mo := Offline.models) 0 photo empty_world =
      (Raise (HTTPException 500 ("Failed to process image: " ++ "Failed to connect")),
       w') /\
    disk w' !! audio_path 0 = Some [x49] /\
    get_audio (stem_of 0 ++ ".mp3") w' =
      (Return (FileResponse (audio_path 0) "audio/mpeg"), w').
Proof.
  apply (X7_failed_save_leaves_partial_audio (Mo := Offline.models) 0 photo
           empty_world "a photo of a dog"
           (snd (describe_scene_default (Mo := Offline.models)
                   (upload_path 0 (filename photo)) (stored 0 photo empty_world)))
           "a photo of a dog" [x49] "Failed to connect").
  - exact photo_ext_allowed.
  - vm_compute. discriminate.
  - vm_compute. reflexivity.
  - reflexivity.
  - reflexivity.
Defined.

Lemma X9_witness :
  analyze_image 0 photo empty_world = analyze_image 0 shouting empty_world.
Proof.
  apply (X9_letter_case_of_name_is_ignored (Mo := models) 0 "holiday.PNG"
           "HOLIDAY.png" (file photo) empty_world).
  reflexivity.
Defined.

Lemma X10_witness : upload_ext (filename archive) = "png".
Proof.
  exact (proj1 (X10_last_dot_decides (Mo := models) 0 archive empty_world
                  "backup.tar" "PNG" eq_refl eq_refl)).
Defined.

Lemma X11_witness :
  analyze_image 0 trailing empty_world =
  (Raise (HTTPException 422 invalid_type_detail), empty_world).
Proof.
  exact (proj2 (X11_empty_extension_rejected (Mo := models) 0 trailing empty_world
                  (or_intror (ex_intro _ "photo" eq_refl)))).
Defined.

Lemma X13_witness :
  length (bboxes photo_locals) = length (kept_labels photo_locals) /\
  length (bboxes photo_locals) = 2%nat.
Proof.
  assert (describe_scene_try (Mo := models) (upload_path 0 (filename photo))
            600%Z 50 (stored 0 photo empty_world) =
          (Return photo_locals,
           snd (describe_scene_try (Mo := models) (upload_path 0 (filename photo))
                  600%Z 50 (stored 0 photo empty_world)))) as Hrun
    by (vm_compute; reflexivity).
  destruct (X13_kept_boxes_and_labels_aligned (Mo := models) _ _ _ _ _ _ Hrun)
    as (tensor & d & _ & _ & Hlen & _).
  split; [exact Hlen | reflexivity].
Defined.

Lemma X14_witness :
  disk (snd (analyze_image 1 blank (snd first_run)))
    !! upload_path 0 (filename photo) = Some (file photo).
Proof.
  apply (X14_later_request_keeps_earlier_files (Mo := models) 0 1 photo blank
           empty_world _ _ first_run_eq).
  vm_compute. discriminate.
Defined.

Lemma X15_witness :
  analyze_image 5 blank empty_world =
  (Raise (HTTPException 500
            ("Error in scene description: " ++ "cannot identify image file")),
   mkWorld (<[upload_path 5 (filename blank) := file blank]> (disk empty_world))
           []
           [("Error in scene description: " ++ "cannot identify image file")]).
Proof.
  apply (X15_undecodable_upload (Mo := models) 5 blank empty_world
           "cannot identify image file" blank_ext_allowed).
  - vm_compute. discriminate.
  - reflexivity.
Defined.

Lemma X16_witness :
  exists w',
    analyze_image 5 silent empty_world =
      (Raise (HTTPException 500 ("Failed to process image: " ++ "No text to speak")),
       w') /\
    disk w' = <[upload_path 5 (filename silent) := file silent]> (disk empty_world) /\
    invoked w' = [TextToSpeech; Captioner; Detector].
Proof.
  apply (X16_refused_caption_writes_no_audio (Mo := models) 5 silent empty_world ""
           (snd (describe_scene_default (Mo := models)
                   (upload_path 5 (filename silent)) (stored 5 silent empty_world)))
           "No text to speak" silent_ext_allowed).
  - vm_compute. discriminate.
  - vm_compute. reflexivity.
  - reflexivity.
Defined.

End ConcreteFurther.

Example root_answers :
  root Demo.empty_world =
  (Return (JSONResponse [("message", "Backend is running successfully!")]),
   Demo.empty_world).
Proof. reflexivity. Qed.
